(** * menpofit CLM: correlation-filter wrapper and gradient-descent fitter

    A shallow embedding of

    - [menpofit/clm/expert/base.py]
      ([IncrementalCorrelationFilterThinWrapper]) and
    - [menpofit/clm/fitter.py] ([CLMFitter], [GradientDescentCLMFitter]),

    followed by the properties of the specification that concern them.

    Python values are modelled as the code uses them: an [ndarray] is a
    shape together with its row-major data, a call that may raise returns
    an [outcome], and a callable that may touch state outside its arguments
    is a function in the state-and-exception monad [M]. *)

From stdpp Require Import base option list strings gmap pretty.
From Stdlib Require Import ZArith QArith Lia.

Set Default Proof Using "Type".
Local Open Scope Z_scope.

(** ** Exceptions and effects *)

(** A raised exception, identified by the name of its class. *)
Inductive exn : Type := Exn (cls : string).

Global Instance exn_eq_dec : EqDecision exn.
Proof. solve_decision. Defined.

Definition ValueError : exn := Exn "ValueError".
Definition IndexError : exn := Exn "IndexError".
Definition ShapeMismatchError : exn := Exn "ShapeMismatchError".
Definition DimensionMismatchError : exn := Exn "DimensionMismatchError".
Definition ConfigurationError : exn := Exn "ConfigurationError".

(** What a call produces: a returned value or a raised exception. *)
Inductive outcome (A : Type) : Type :=
| Return (a : A)
| Raise (e : exn).
Global Arguments Return {A} a.
Global Arguments Raise {A} e.

Definition returned {A} (o : outcome A) : option A :=
  match o with Return a => Some a | Raise _ => None end.

Definition raised {A} (o : outcome A) : option exn :=
  match o with Return _ => None | Raise e => Some e end.

(** A computation over a store [S]: what was written before an exception
    was raised stays written, as in Python. *)
Definition M (S A : Type) : Type := S → outcome A * S.

Global Instance M_ret {S} : MRet (M S) := λ A a s, (Return a, s).

Global Instance M_bind {S} : MBind (M S) := λ A B k m s,
  match m s with
  | (Return a, s') => k a s'
  | (Raise e, s') => (Raise e, s')
  end.

Definition lift {S A} (o : outcome A) : M S A := λ s, (o, s).

Definition throw {S A} (e : exn) : M S A := lift (Raise e).

(** ** numpy arrays *)

Section Arrays.
Context {elt : Type}.

(** A numeric array is its shape and its row-major data; an array of
    [dtype=object] holds whole arrays as its items. *)
Inductive ndarray : Type :=
| Dense (shape : list nat) (data : list elt)
| Boxed (items : list (list nat * list elt)).

Definition shape (a : ndarray) : list nat :=
  match a with
  | Dense s _ => s
  | Boxed items => [length items]
  end.

Definition flat (a : ndarray) : list elt :=
  match a with
  | Dense _ d => d
  | Boxed _ => []
  end.

Definition size_of (s : list nat) : nat := foldr Nat.mul 1%nat s.

(** The data of a numeric array fills its shape. *)
Definition well_formed (a : ndarray) : bool :=
  match a with
  | Dense s d => bool_decide (length d = size_of s)
  | Boxed _ => false
  end.

Definition has_shape (s : list nat) (a : ndarray) : bool :=
  match a with
  | Dense s' _ => bool_decide (s' = s)
  | Boxed _ => false
  end.

(** A list of arrays is rectangular when its members are numeric and
    share one shape. *)
Definition rectangular (l : list ndarray) : bool :=
  match l with
  | [] => true
  | Dense s _ :: rest => forallb (has_shape s) rest
  | Boxed _ :: _ => false
  end.

(** The members of a rectangular list laid out along a new leading
    axis. *)
Definition stack (l : list ndarray) : ndarray :=
  Dense (length l :: match l with [] => [] | a :: _ => shape a end)
        (concat (flat <$> l)).

(** What [np.asarray] does with a ragged list depends on the numpy
    release: it raises, or it builds an array of objects. *)
Class NumpyRagged : Type :=
  asarray_ragged : list ndarray → outcome ndarray.

(** [np.asarray] on a Python list of arrays. *)
Definition np_asarray `{NumpyRagged} (l : list ndarray) : outcome ndarray :=
  if rectangular l then Return (stack l) else asarray_ragged l.

(** [np.concatenate] of two numeric arrays along the first axis. *)
Definition concatenate (a b : ndarray) : ndarray :=
  match shape a, shape b with
  | n :: s, m :: _ => Dense ((n + m)%nat :: s) (flat a ++ flat b)
  | _, _ => a
  end.

(** The training images as the methods receive them: a [list] of arrays
    or one array. *)
Inductive patches : Type :=
| PyList (members : list ndarray)
| PyArray (a : ndarray).

(** ** menpofit/clm/expert/base.py *)

Section Wrapper.
Context {W : Type} `{NumpyRagged}.

(** The filter, the auto-correlation array and the cross-correlation
    array, in the order the callables return them. *)
Definition cf_result : Type := ndarray * ndarray * ndarray.

Definition correlation_filter (r : cf_result) : ndarray := r.1.1.
Definition auto_correlation (r : cf_result) : ndarray := r.1.2.
Definition cross_correlation (r : cf_result) : ndarray := r.2.

Definition cf_type : Type := ndarray → ndarray → M W cf_result.
Definition icf_type : Type :=
  ndarray → ndarray → Z → ndarray → ndarray → M W cf_result.

(** The instance holds the two callables and nothing else; neither
    method assigns to [self]. *)
Record IncrementalCorrelationFilterThinWrapper : Type := {
  cf_callable : cf_type;
  icf_callable : icf_type
}.

(** [__init__(self, cf_callable=mccf, icf_callable=imccf)]; the two
    defaults live in [menpofit.math.correlationfilter]. *)
Definition init (mccf : cf_type) (imccf : icf_type)
    (cf : option cf_type) (icf : option icf_type)
    : IncrementalCorrelationFilterThinWrapper :=
  {| cf_callable := default mccf cf;
     icf_callable := default imccf icf |}.

(** [if isinstance(X, list): X = np.asarray(X)] *)
Definition as_ndarray (X : patches) : M W ndarray :=
  match X with
  | PyList l => lift (np_asarray l)
  | PyArray a => mret a
  end.

Definition increment (self : IncrementalCorrelationFilterThinWrapper)
    (A B : ndarray) (n_x : Z) (Z : patches) (t : ndarray)
    : M W cf_result :=
  Z' ← as_ndarray Z;
  icf_callable self A B n_x Z' t.

Definition train (self : IncrementalCorrelationFilterThinWrapper)
    (X : patches) (t : ndarray) : M W cf_result :=
  X' ← as_ndarray X;
  cf_callable self X' t.
End Wrapper.
End Arrays.

Global Arguments ndarray : clear implicits.
Global Arguments patches : clear implicits.
Global Arguments NumpyRagged : clear implicits.
Global Arguments cf_result : clear implicits.
Global Arguments cf_type : clear implicits.
Global Arguments icf_type : clear implicits.
Global Arguments IncrementalCorrelationFilterThinWrapper : clear implicits.

(** ** Patch and response geometry *)

(** ``N = (patch_h+response_h-1) * (patch_w+response_w-1) * n_channels`` *)
Record geometry : Type := {
  n_channels : nat;
  patch_h : nat;
  patch_w : nat;
  response_h : nat;
  response_w : nat
}.

Definition N_of (g : geometry) : Z :=
  (Z.of_nat (patch_h g) + Z.of_nat (response_h g) - 1)
  * (Z.of_nat (patch_w g) + Z.of_nat (response_w g) - 1)
  * Z.of_nat (n_channels g).

(** No axis of a patch or of the response is empty. *)
Definition wf_geometry (g : geometry) : bool :=
  bool_decide (1 ≤ n_channels g)%nat
  && bool_decide (1 ≤ patch_h g)%nat && bool_decide (1 ≤ patch_w g)%nat
  && bool_decide (1 ≤ response_h g)%nat && bool_decide (1 ≤ response_w g)%nat.

Section Geometry.
Context {elt : Type}.
Implicit Types (a t A B : ndarray elt) (X : patches elt) (g : geometry).

(** One ``(n_channels, patch_h, patch_w)`` member of a list of patches. *)
Definition is_patch g a : bool :=
  well_formed a && has_shape [n_channels g; patch_h g; patch_w g] a.

(** A non-empty ``(n_images, n_channels, patch_h, patch_w)`` array. *)
Definition is_batch_array g a : bool :=
  well_formed a &&
  match shape a with
  | [n; c; h; w] =>
      bool_decide (1 ≤ n)%nat
      && bool_decide ([c; h; w] = [n_channels g; patch_h g; patch_w g])
  | _ => false
  end.

(** The training images in either input form. *)
Definition is_batch g X : bool :=
  match X with
  | PyList l => bool_decide (l ≠ []) && forallb (is_patch g) l
  | PyArray a => is_batch_array g a
  end.

(** The ``(1, response_h, response_w)`` desired response. *)
Definition is_response g t : bool :=
  well_formed t && has_shape [1%nat; response_h g; response_w g] t.

(** ``(N,)`` auto-correlation and ``(N, N)`` cross-correlation arrays. *)
Definition is_statistics g A B : bool :=
  well_formed A && well_formed B
  && bool_decide (Z.of_nat <$> shape A = [N_of g])
  && bool_decide (Z.of_nat <$> shape B = [N_of g; N_of g]).

(** The ``(n_channels, response_h, response_w)`` filter with its two
    statistics arrays. *)
Definition is_output g (r : cf_result elt) : bool :=
  has_shape [n_channels g; response_h g; response_w g] (correlation_filter r)
  && is_statistics g (auto_correlation r) (cross_correlation r).

(** [len(X)]: the number of images in the batch. *)
Definition len X : nat :=
  match X with
  | PyList l => length l
  | PyArray a => hd 0%nat (shape a)
  end.

(** The union of two batches as one batch: two lists are appended, and
    otherwise the arrays are concatenated along the image axis. *)
Definition as_array X : ndarray elt :=
  match X with
  | PyList l => stack l
  | PyArray a => a
  end.

Definition batch_union (B1 B2 : patches elt) : patches elt :=
  match B1, B2 with
  | PyList l1, PyList l2 => PyList (l1 ++ l2)
  | _, _ => PyArray (concatenate (as_array B1) (as_array B2))
  end.

(** *** What the docstrings promise of the two callables *)

Section Contracts.
Context {W : Type}.

(** Modelled from the spec: the solver primitive behind [cf_callable]
    ([mccf] and [mosse] of [menpofit.math.correlationfilter], which is not
    part of the sources).  On a well-formed batch and response it returns,
    and what it returns has the shapes that the docstring of [train]
    lists. *)
Definition cf_contract (cf : cf_type elt W) : Prop :=
  ∀ g a t w,
    wf_geometry g → is_batch_array g a → is_response g t →
    ∃ r w', cf a t w = (Return r, w') ∧ is_output g r.

(** Modelled from the spec: the incremental solver primitive behind
    [icf_callable] ([imccf] and [imosse], likewise not part of the
    sources).  On well-formed statistics, batch and response it returns,
    and what it returns has the shapes that the docstring of [increment]
    lists. *)
Definition icf_contract (icf : icf_type elt W) : Prop :=
  ∀ g A B n_x a t w,
    wf_geometry g → is_statistics g A B →
    is_batch_array g a → is_response g t →
    ∃ r w', icf A B n_x a t w = (Return r, w') ∧ is_output g r.

End Contracts.

(** *** Calls made one after the other *)

Section Manager.
Context {W : Type} `{NumpyRagged elt}.
Implicit Types (self : IncrementalCorrelationFilterThinWrapper elt W).

(** [increment] called once per step, each call on the auto- and
    cross-correlation arrays that the call before returned; the count
    of every call is the one its caller passes. *)
Fixpoint increment_repeatedly self (r : cf_result elt)
    (steps : list (Z * patches elt)) (t : ndarray elt)
    : M W (cf_result elt) :=
  match steps with
  | [] => mret r
  | step :: rest =>
      r' ← increment self (auto_correlation r) (cross_correlation r)
              step.1 step.2 t;
      increment_repeatedly self r' rest t
  end.

(** A call made on the instance, and the state a sequence of calls
    leaves behind when the caller catches what they raise. *)
Inductive call : Type :=
| CallTrain (X : patches elt) (t : ndarray elt)
| CallIncrement (A B : ndarray elt) (n_x : Z) (Z : patches elt)
    (t : ndarray elt).

Definition perform self (c : call) : M W (cf_result elt) :=
  match c with
  | CallTrain X t => train self X t
  | CallIncrement A B n_x Z t => increment self A B n_x Z t
  end.

Fixpoint perform_all self (cs : list call) (w : W) : W :=
  match cs with
  | [] => w
  | c :: rest => perform_all self rest (perform self c w).2
  end.
End Manager.
End Geometry.

Global Arguments call : clear implicits.

(** ** A reference solver

    Arrays of zeros of the documented shapes, computed from the shapes of
    the batch and of the response alone; every call is counted in the
    state.  It checks neither the statistics it is given nor the count. *)

Definition zeros (s : list nat) : ndarray Z := Dense s (replicate (size_of s) 0).

Definition zeros_output (a t : ndarray Z) : outcome (cf_result Z) :=
  match shape a, shape t with
  | [_; c; ph; pw], [_; rh; rw] =>
      let n := ((ph + rh - 1) * (pw + rw - 1) * c)%nat in
      Return (zeros [c; rh; rw], zeros [n], zeros [n; n])
  | _, _ => Raise ValueError
  end.

Definition zeros_cf : cf_type Z nat :=
  λ a t calls, (zeros_output a t, S calls).

Definition zeros_icf : icf_type Z nat :=
  λ A B n_x a t calls, (zeros_output a t, S calls).

Definition zeros_wrapper : IncrementalCorrelationFilterThinWrapper Z nat :=
  init zeros_cf zeros_icf None None.

(** A solver that leaves the state as it found it. *)
Definition quiet_cf : cf_type Z nat :=
  λ a t calls, (zeros_output a t, calls).

Definition quiet_icf : icf_type Z nat :=
  λ A B n_x a t calls, (zeros_output a t, calls).

Definition quiet_wrapper : IncrementalCorrelationFilterThinWrapper Z nat :=
  init zeros_cf zeros_icf (Some quiet_cf) (Some quiet_icf).

(** A solver with memory: what it returns grows with the number of
    calls made before. *)
Definition counting_output (calls : nat) : cf_result Z :=
  (zeros [calls], zeros [calls], zeros [calls; calls]).

Definition counting_cf : cf_type Z nat :=
  λ a t calls, (Return (counting_output calls), S calls).

Definition counting_icf : icf_type Z nat :=
  λ A B n_x a t calls, (Return (counting_output calls), S calls).

Definition counting_wrapper : IncrementalCorrelationFilterThinWrapper Z nat :=
  init zeros_cf zeros_icf (Some counting_cf) (Some counting_icf).

(** The two behaviours of [np.asarray] on a ragged list. *)
Definition strict_numpy : NumpyRagged Z := λ _, Raise ValueError.

Definition boxing_numpy : NumpyRagged Z := λ l,
  Return (Boxed ((λ a, (shape a, flat a)) <$> l)).

(** ** Shape models and their active components *)

Definition loc : Type := positive.

(** The components retained at training time are those that have an
    eigenvalue; [n_active_components] of them are in use. *)
Record ShapeModel : Type := {
  eigenvalues : list Q;
  n_active_components : nat;
  n_global_parameters : nat
}.

Definition n_components (m : ShapeModel) : nat := length (eigenvalues m).

(** One value of [n_shape]: an [int] or a [float]. *)
Inductive component_spec : Type :=
| AsInt (k : Z)
| AsFloat (p : Q).

(** [n_shape]: ``None``, one value for all scales, or a value per scale. *)
Inductive n_shape_arg : Type :=
| NoneArg
| Single (c : component_spec)
| PerScale (cs : list component_spec).

Definition with_active (m : ShapeModel) (k : nat) : ShapeModel :=
  {| eigenvalues := eigenvalues m;
     n_active_components := k;
     n_global_parameters := n_global_parameters m |}.

Definition total_variance (evs : list Q) : Q := foldr Qplus 0%Q evs.

(** How many leading components it takes for the variance they capture to
    reach [target], all of them when it is never reached. *)
Fixpoint components_reaching (target acc : Q) (evs : list Q) : nat :=
  match evs with
  | [] => 0%nat
  | e :: rest =>
      if Qle_bool target acc then 0%nat
      else S (components_reaching target (acc + e)%Q rest)
  end.

(** Modelled from the spec: the mutator of the shape model that sets its
    active components ([menpo]'s model class is not part of the sources).
    An [int] is the exact count and is refused when it is negative or
    exceeds the retained count, a [float] is the fraction of the variance
    to keep, ``None`` takes every retained component. *)
Definition set_active (m : ShapeModel) (c : option component_spec)
    : outcome ShapeModel :=
  match c with
  | None => Return (with_active m (n_components m))
  | Some (AsInt k) =>
      if bool_decide (0 ≤ k ≤ Z.of_nat (n_components m))
      then Return (with_active m (Z.to_nat k))
      else Raise ConfigurationError
  | Some (AsFloat p) =>
      Return (with_active m
        (components_reaching (p * total_variance (eigenvalues m))%Q 0%Q
           (eigenvalues m)))
  end.

Definition set_active_at (l : loc) (c : option component_spec)
    : M (gmap loc ShapeModel) unit := λ h,
  match h !! l with
  | None => (Raise (Exn "ReferenceError"), h)
  | Some m =>
      match set_active m c with
      | Return m' => (Return (), <[l := m']> h)
      | Raise e => (Raise e, h)
      end
  end.

Fixpoint set_active_each (models : list loc) (cs : list (option component_spec))
    : M (gmap loc ShapeModel) unit :=
  match models, cs with
  | l :: models', c :: cs' =>
      _ ← set_active_at l c; set_active_each models' cs'
  | _, _ => mret ()
  end.

(** Modelled from the spec: [menpofit.checks.set_models_components], which
    is not part of the sources.  One value applies to every scale, a list
    gives one value per scale and is refused when its length is not the
    number of scales, ``None`` uses all available components. *)
Definition set_models_components (models : list loc) (n_shape : n_shape_arg)
    : M (gmap loc ShapeModel) unit :=
  match n_shape with
  | NoneArg => set_active_each models (replicate (length models) None)
  | Single c => set_active_each models (replicate (length models) (Some c))
  | PerScale cs =>
      if bool_decide (length cs = length models)
      then set_active_each models (Some <$> cs)
      else throw ConfigurationError
  end.

(** ** The alignment algorithm of one scale *)

Inductive stop_reason : Type :=
| ReachedMaxIters
| Converged.

Section Alignment.
Context {Image ShapeEstimate : Type}.

(** The shape model's projection-and-reconstruction, one update of the
    estimate (which raises when the response maps are degenerate) and the
    algorithm's convergence check. *)
Context (reconstruct : ShapeEstimate → ShapeEstimate).
Context (update : Image → ShapeEstimate → outcome ShapeEstimate).
Context (converged : ShapeEstimate → ShapeEstimate → bool).

Record AlgorithmResult : Type := {
  shapes : list ShapeEstimate;
  n_iters : nat;
  stopped_by : stop_reason
}.

(** Modelled from the spec: the counted iterations.  Each emits the
    updated estimate; the loop ends when the budget is used up or the
    convergence check holds, whichever comes first. *)
Fixpoint iterate (image : Image) (budget : nat) (current : ShapeEstimate)
    : outcome (list ShapeEstimate * stop_reason) :=
  match budget with
  | O => Return ([], ReachedMaxIters)
  | S budget' =>
      match update image current with
      | Raise e => Raise e
      | Return next =>
          if converged current next then Return ([next], Converged)
          else
            match iterate image budget' next with
            | Raise e => Raise e
            | Return (rest, why) => Return (next :: rest, why)
            end
      end
  end.

(** Modelled from the spec: [run(image, initial_shape, max_iters)] of an
    alignment algorithm ([menpofit.clm.algorithm] is not part of the
    sources; [fitter.py] only documents that the reconstruction is not
    counted for [max_iters]).  With a parametric shape model the initial
    shape is reconstructed first, and that estimate opens the result. *)
Definition run (parametric : bool) (image : Image)
    (initial_shape : ShapeEstimate) (max_iters : Z)
    : outcome AlgorithmResult :=
  let start :=
    if parametric then reconstruct initial_shape else initial_shape in
  match iterate image (Z.to_nat max_iters) start with
  | Raise e => Raise e
  | Return (trace, why) =>
      Return {| shapes := start :: trace;
                n_iters := length trace;
                stopped_by := why |}
  end.
End Alignment.

Global Arguments AlgorithmResult : clear implicits.

(** ** menpofit/clm/fitter.py *)

Section Fitter.
(** The reference shape, the holistic features, an expert ensemble, an
    algorithm object and the state the multi-scale base class keeps are
    opaque here. *)
Context {Shape Features Ensemble Algorithm Base : Type}.

(** The attributes of a trained CLM that the fitter reads.  The shape
    models are objects of their own, shared by reference. *)
Record CLM : Type := {
  scales : list Q;
  reference_shape : Shape;
  holistic_features : Features;
  expert_ensembles : list Ensemble;
  shape_models : list loc;
  n_scales : nat
}.

(** The objects alive while a fitter is built. *)
Record store : Type := {
  clm_objects : gmap loc CLM;
  shape_model_objects : gmap loc ShapeModel
}.

(** [checks.set_models_components], [MultiScaleParametricFitter.__init__]
    and the default [gd_algorithm_cls] are imported from modules that are
    not part of the sources.  A constructed algorithm may depend on what
    its shape model holds when it is built. *)
Context (checks_set_models_components :
           list loc → n_shape_arg → M (gmap loc ShapeModel) unit).
Context (MultiScaleParametricFitter_init :
           list Q → Shape → Features → list Algorithm → Base).
Context (RegularisedLandmarkMeanShift :
           Ensemble → loc → gmap loc ShapeModel → Algorithm).

Definition algorithm_cls : Type :=
  Ensemble → loc → gmap loc ShapeModel → Algorithm.

Record CLMFitter : Type := {
  _model : loc;
  base : Base
}.

(** Reading an attribute of the object behind a reference. *)
Definition deref (clm : loc) : M store CLM := λ σ,
  match clm_objects σ !! clm with
  | Some c => (Return c, σ)
  | None => (Raise (Exn "ReferenceError"), σ)
  end.

(** A call that works on the shape models only. *)
Definition on_shape_models {R} (m : M (gmap loc ShapeModel) R)
    : M store R := λ σ,
  let '(r, h) := m (shape_model_objects σ) in
  (r, {| clm_objects := clm_objects σ; shape_model_objects := h |}).

(** [l[i]] for [i] out of a [range]. *)
Definition getitem {R} (l : list R) (i : nat) : M store R :=
  match l !! i with
  | Some x => mret x
  | None => throw IndexError
  end.

Definition construct (cls : algorithm_cls) (e : Ensemble) (m : loc)
    : M store Algorithm := λ σ,
  (Return (cls e m (shape_model_objects σ)), σ).

(** [CLMFitter.__init__(self, clm, algorithms)] *)
Definition CLMFitter_init (clm : loc) (algorithms : list Algorithm)
    : M store CLMFitter :=
  c ← deref clm;
  mret {| _model := clm;
          base := MultiScaleParametricFitter_init (scales c)
                    (reference_shape c) (holistic_features c) algorithms |}.

(** The [clm] property. *)
Definition clm (self : CLMFitter) : loc := _model self.

(** [[gd_algorithm_cls(clm.expert_ensembles[i], clm.shape_models[i])
      for i in range(clm.n_scales)]] *)
Fixpoint build_algorithms (cls : algorithm_cls) (clm : loc)
    (indices : list nat) : M store (list Algorithm) :=
  match indices with
  | [] => mret []
  | i :: rest =>
      c ← deref clm;
      e ← getitem (expert_ensembles c) i;
      m ← getitem (shape_models c) i;
      a ← construct cls e m;
      others ← build_algorithms cls clm rest;
      mret (a :: others)
  end.

(** [GradientDescentCLMFitter.__init__(self, clm,
      gd_algorithm_cls=RegularisedLandmarkMeanShift, n_shape=None)] *)
Definition GradientDescentCLMFitter_init (clm : loc)
    (gd_algorithm_cls : option algorithm_cls) (n_shape : n_shape_arg)
    : M store CLMFitter :=
  let cls := default RegularisedLandmarkMeanShift gd_algorithm_cls in
  c ← deref clm;
  _ ← on_shape_models (checks_set_models_components (shape_models c) n_shape);
  c' ← deref clm;
  algorithms ← build_algorithms cls clm (seq 0 (n_scales c'));
  CLMFitter_init clm algorithms.
End Fitter.

Global Arguments CLM : clear implicits.
Global Arguments store : clear implicits.
Global Arguments CLMFitter : clear implicits.
Global Arguments algorithm_cls : clear implicits.

(** ** Sample inputs

    One channel, 2x2 patches and a 2x2 response, so that [N_of] is 9. *)

Definition sample_geometry : geometry :=
  {| n_channels := 1; patch_h := 2; patch_w := 2;
     response_h := 2; response_w := 2 |}.

Definition sample_patch_1 : ndarray Z := Dense [1; 2; 2]%nat [1; 2; 3; 4].
Definition sample_patch_2 : ndarray Z := Dense [1; 2; 2]%nat [5; 6; 7; 8].
Definition sample_patch_3 : ndarray Z := Dense [1; 2; 2]%nat [9; 8; 7; 6].

(** A patch with two channels where the others have one. *)
Definition odd_patch : ndarray Z :=
  Dense [2; 2; 2]%nat [1; 2; 3; 4; 5; 6; 7; 8].

Definition sample_response : ndarray Z := Dense [1; 2; 2]%nat [0; 1; 0; 0].

Definition sample_list : list (ndarray Z) := [sample_patch_1; sample_patch_2].
Definition ragged_list : list (ndarray Z) := [sample_patch_1; odd_patch].

Definition sample_batch_1 : patches Z := PyList sample_list.
Definition sample_batch_2 : patches Z := PyArray (stack [sample_patch_3]).

(** Statistics of a 2x2 geometry with a 1x1 response, for which [N_of]
    is 4. *)
Definition stale_auto_correlation : ndarray Z := zeros [4%nat].
Definition stale_cross_correlation : ndarray Z := zeros [4%nat; 4%nat].

(** A sample alignment: estimates are integers, reconstruction rounds
    down to an even number, an update adds three, and two estimates that
    agree after rounding count as converged. *)
Definition sample_reconstruct (x : Z) : Z := 2 * (x / 2).
Definition sample_update (image : unit) (x : Z) : outcome Z := Return (x + 3).
Definition sample_converged (x y : Z) : bool := bool_decide (x / 2 = y / 2).

(** Two shape models, of three and of two retained components. *)
Definition sample_model_1 : ShapeModel :=
  {| eigenvalues := [6 # 1; 3 # 1; 1 # 1]%Q;
     n_active_components := 1; n_global_parameters := 4 |}.
Definition sample_model_2 : ShapeModel :=
  {| eigenvalues := [5 # 1; 5 # 1]%Q;
     n_active_components := 2; n_global_parameters := 4 |}.

Definition sample_models : gmap loc ShapeModel :=
  <[10%positive := sample_model_1]> (<[11%positive := sample_model_2]> ∅).

(** A trained model of two scales whose shape models are the two sample
    models, with strings standing for the opaque parts.  An algorithm
    records its ensemble and how many components were active when it was
    built. *)
Definition sample_clm : CLM string string string :=
  {| scales := [1 # 2; 1 # 1]%Q;
     reference_shape := "reference shape";
     holistic_features := "no_op";
     expert_ensembles := ["coarse experts"; "fine experts"];
     shape_models := [10; 11]%positive;
     n_scales := 2 |}.

Definition sample_store : store string string string :=
  {| clm_objects := {[ 1%positive := sample_clm ]};
     shape_model_objects := sample_models |}.

Definition sample_algorithm_cls : algorithm_cls string (string * option nat) :=
  λ e m h, (e, n_active_components <$> h !! m).

Definition sample_base_init (scales : list Q) (reference_shape : string)
    (holistic_features : string) (algorithms : list (string * option nat))
    : list Q * list (string * option nat) :=
  (scales, algorithms).

(** ** Reading an array back as a list *)

Section Unstack.
Context {elt : Type}.

(** [n] consecutive runs of [size] items. *)
Fixpoint chunks (n size : nat) (d : list elt) : list (list elt) :=
  match n with
  | O => []
  | S n' => take size d :: chunks n' size (drop size d)
  end.

(** [list(a)]: the items of a numeric array along its first axis. *)
Definition unstack (a : ndarray elt) : list (ndarray elt) :=
  match a with
  | Dense (n :: s) d => Dense s <$> chunks n (size_of s) d
  | _ => []
  end.
End Unstack.

(** ** menpofit/clm/fitter.py: the result and the description of a fitter *)

Definition newline : string := String (Ascii.ascii_of_nat 10) "".

(** [sep.join(l)] *)
Fixpoint join (sep : string) (l : list string) : string :=
  match l with
  | [] => ""
  | [x] => x
  | x :: rest => x +:+ sep +:+ join sep rest
  end.

(** [lvl_str_tmplt.format(s, n_active, n_global)] *)
Definition lvl_str_tmplt (s n_active n_global : string) : string :=
  "   - Scale " +:+ s +:+ newline
  +:+ "     - " +:+ n_active +:+ " active shape components" +:+ newline
  +:+ "     - " +:+ n_global +:+ " similarity transform components".

(** The template of [cls_str], filled in. *)
Definition cls_str_tmplt (class_title scales scales_info : string) : string :=
  class_title +:+ newline
  +:+ " - Scales: " +:+ scales +:+ newline
  +:+ scales_info +:+ newline
  +:+ "    ".

Section FitterUse.
Context {Shape Features Ensemble Algorithm Base : Type}.
Context {Image ScaleResult Affine ScaleTransform Result : Type}.

(** The attributes [scales] and [algorithms] that the multi-scale base
    class keeps, the [__str__] of the model and of an algorithm, [str]
    of a scale and of the list of scales, and the constructor of
    [CLMResult] come from modules that are not part of the sources.  What
    a model or an algorithm prints may depend on the shape models as they
    are when it is printed. *)
Context (fitter_scales : Base → list Q).
Context (fitter_algorithms : Base → list Algorithm).
Context (clm_str : CLM Shape Features Ensemble → gmap loc ShapeModel → string).
Context (algorithm_str : Algorithm → gmap loc ShapeModel → string).
Context (str_scale : Q → string).
Context (str_scales : list Q → string).
Context (CLMResult :
           list ScaleResult → list Q → list Affine → list ScaleTransform →
           Image → option Shape → Result).

(** [CLMFitter._fitter_result(self, image, algorithm_results,
      affine_transforms, scale_transforms, gt_shape=None)] *)
Definition _fitter_result (self : CLMFitter Base) (image : Image)
    (algorithm_results : list ScaleResult) (affine_transforms : list Affine)
    (scale_transforms : list ScaleTransform) (gt_shape : option Shape)
    : Result :=
  CLMResult algorithm_results (fitter_scales (base self)) affine_transforms
    scale_transforms image gt_shape.

(** Reading the shape model behind a reference. *)
Definition deref_shape_model (m : loc)
    : M (store Shape Features Ensemble) ShapeModel := λ σ,
  match shape_model_objects σ !! m with
  | Some x => (Return x, σ)
  | None => (Raise (Exn "ReferenceError"), σ)
  end.

(** The shape models as they are when a description is asked for. *)
Definition shape_models_now
    : M (store Shape Features Ensemble) (gmap loc ShapeModel) := λ σ,
  (Return (shape_model_objects σ), σ).

(** [for k, s in enumerate(self.scales): scales_info.append(...)], from
    index [k] on. *)
Fixpoint scales_info_from (self : CLMFitter Base) (k : nat) (scales : list Q)
    : M (store Shape Features Ensemble) (list string) :=
  match scales with
  | [] => mret []
  | s :: rest =>
      c ← deref (clm self);
      m ← getitem (shape_models c) k;
      x ← deref_shape_model m;
      c' ← deref (clm self);
      m' ← getitem (shape_models c') k;
      x' ← deref_shape_model m';
      others ← scales_info_from self (S k) rest;
      mret (lvl_str_tmplt (str_scale s) (pretty (n_active_components x))
              (pretty (n_global_parameters x')) :: others)
  end.

(** [GradientDescentCLMFitter.__str__(self)] *)
Definition __str__ (self : CLMFitter Base)
    : M (store Shape Features Ensemble) string :=
  scales_info ← scales_info_from self 0 (fitter_scales (base self));
  a ← getitem (fitter_algorithms (base self)) 0;
  h ← shape_models_now;
  let cls_str :=
    cls_str_tmplt (algorithm_str a h) (str_scales (fitter_scales (base self)))
      (join newline scales_info) in
  c ← deref (clm self);
  h' ← shape_models_now;
  mret (clm_str c h' +:+ cls_str).
End FitterUse.

(** A fitter base that is the pair of its scales and its algorithms, and
    plain descriptions of the sample objects. *)
Definition sample_str_scale (s : Q) : string :=
  pretty (Qnum s) +:+ "/" +:+ pretty (Zpos (Qden s)).

Definition sample_clm_str (c : CLM string string string)
    (h : gmap loc ShapeModel) : string :=
  "CLM with " +:+ pretty (n_scales c) +:+ " scales".

Definition sample_algorithm_str (a : string * option nat)
    (h : gmap loc ShapeModel) : string :=
  "Algorithm on " +:+ a.1.

(** The sample model without any scale. *)
Definition empty_clm : CLM string string string :=
  {| scales := [];
     reference_shape := "reference shape";
     holistic_features := "no_op";
     expert_ensembles := [];
     shape_models := [];
     n_scales := 0 |}.

Definition empty_store : store string string string :=
  {| clm_objects := {[ 1%positive := empty_clm ]};
     shape_model_objects := ∅ |}.

(** The sample model announcing a third scale that it does not have. *)
Definition overlong_clm : CLM string string string :=
  {| scales := [1 # 4; 1 # 2; 1 # 1]%Q;
     reference_shape := "reference shape";
     holistic_features := "no_op";
     expert_ensembles := ["coarse experts"; "fine experts"];
     shape_models := [10; 11]%positive;
     n_scales := 3 |}.

Definition overlong_store : store string string string :=
  {| clm_objects := {[ 1%positive := overlong_clm ]};
     shape_model_objects := sample_models |}.

Definition sample_str_scales (l : list Q) : string :=
  "[" +:+ join ", " (sample_str_scale <$> l) +:+ "]".

(** The sample fitter as the constructor returns it when two components
    are asked for, and the store it leaves. *)
Definition sample_fitter : CLMFitter (list Q * list (string * option nat)) :=
  {| _model := 1%positive;
     base := ([1 # 2; 1 # 1]%Q,
              [("coarse experts", Some 2%nat); ("fine experts", Some 2%nat)]) |}.

Definition sample_store_set : store string string string :=
  {| clm_objects := clm_objects sample_store;
     shape_model_objects :=
       (set_models_components [10; 11]%positive (Single (AsInt 2))
          sample_models).2 |}.

(** The fitter of the model without scales. *)
Definition empty_fitter : CLMFitter (list Q * list (string * option nat)) :=
  {| _model := 1%positive; base := ([], []) |}.

(** * Properties *)

(** ** Running computations *)

Lemma bind_run {S A B} (m : M S A) (k : A → M S B) (s : S) :
  (m ≫= k) s =
  match m s with
  | (Return a, s') => k a s'
  | (Raise e, s') => (Raise e, s')
  end.
Proof. reflexivity. Qed.

Lemma bind_returns {S A B} (m : M S A) (k : A → M S B) s a s' :
  m s = (Return a, s') → (m ≫= k) s = k a s'.
Proof. intros Hm. rewrite bind_run, Hm. reflexivity. Qed.

Lemma bind_raises {S A B} (m : M S A) (k : A → M S B) s e s' :
  m s = (Raise e, s') → (m ≫= k) s = (Raise e, s').
Proof. intros Hm. rewrite bind_run, Hm. reflexivity. Qed.

(** ** Lists of patches as arrays *)

Section ArrayFacts.
Context {elt : Type}.
Implicit Types (a : ndarray elt) (l : list (ndarray elt)) (g : geometry).

Lemma has_shape_spec s a :
  has_shape s a = true ↔ ∃ d, a = Dense s d.
Proof.
  destruct a as [s' d|items]; simpl.
  - rewrite bool_decide_eq_true. split.
    + intros ->. eauto.
    + intros [d' [= -> _]]. reflexivity.
  - split; [discriminate|]. intros [d [=]].
Qed.

Lemma is_patch_spec g a :
  is_patch g a = true ↔
  ∃ d, a = Dense [n_channels g; patch_h g; patch_w g] d
       ∧ length d = size_of [n_channels g; patch_h g; patch_w g].
Proof.
  unfold is_patch. rewrite andb_true_iff, has_shape_spec. split.
  - intros [Hwf [d ->]]. simpl in Hwf. apply bool_decide_eq_true in Hwf.
    eauto.
  - intros (d & -> & Hlen). split; [|eauto].
    simpl. apply bool_decide_eq_true. exact Hlen.
Qed.

Lemma patches_rectangular g l :
  forallb (is_patch g) l = true → rectangular l = true.
Proof.
  destruct l as [|a rest]; [reflexivity|]. simpl.
  rewrite andb_true_iff. intros [Ha Hrest].
  apply is_patch_spec in Ha as (d & -> & _).
  rewrite forallb_forall in Hrest |- *. intros b Hb.
  specialize (Hrest b Hb). unfold is_patch in Hrest.
  apply andb_true_iff in Hrest. tauto.
Qed.

Lemma patches_data_length g l :
  forallb (is_patch g) l = true →
  length (concat (flat <$> l))
  = (length l * size_of [n_channels g; patch_h g; patch_w g])%nat.
Proof.
  induction l as [|a rest IH]; [reflexivity|]. simpl forallb.
  rewrite andb_true_iff. intros [Ha Hrest].
  apply is_patch_spec in Ha as (d & -> & Hd).
  rewrite fmap_cons, concat_cons, length_app, (IH Hrest).
  simpl flat. rewrite Hd. simpl length. lia.
Qed.

(** Stacking a non-empty list of patches gives the batch array of the
    same images. *)
Lemma stack_is_batch_array g l :
  l ≠ [] → forallb (is_patch g) l = true →
  is_batch_array g (stack l) = true ∧ hd 0%nat (shape (stack l)) = length l.
Proof.
  intros Hne Hall. split; [|reflexivity].
  pose proof (patches_data_length g l Hall) as Hlen.
  destruct l as [|a rest]; [done|].
  simpl in Hall. apply andb_true_iff in Hall as [Ha _].
  apply is_patch_spec in Ha as (d & -> & _).
  unfold is_batch_array, stack. simpl shape.
  rewrite andb_true_iff. split.
  - simpl well_formed. apply bool_decide_eq_true.
    etrans; [exact Hlen|]. simpl. lia.
  - rewrite andb_true_iff. split; apply bool_decide_eq_true; simpl; [lia|done].
Qed.

Section Normalise.
Context {W : Type} `{NumpyRagged elt}.

Lemma as_ndarray_rectangular l (w : W) :
  rectangular l = true → as_ndarray (PyList l) w = (Return (stack l), w).
Proof.
  intros Hrect. unfold as_ndarray, lift, np_asarray.
  rewrite Hrect. reflexivity.
Qed.

(** A well-formed batch in either form reaches the solver as a batch
    array of [len] images, and normalising it touches no state. *)
Lemma as_ndarray_batch g (X : patches elt) (w : W) :
  is_batch g X = true →
  as_ndarray X w = (Return (as_array X), w)
  ∧ is_batch_array g (as_array X) = true
  ∧ hd 0%nat (shape (as_array X)) = len X.
Proof.
  destruct X as [l|a]; simpl is_batch.
  - rewrite andb_true_iff, bool_decide_eq_true. intros [Hne Hall].
    destruct (stack_is_batch_array g l Hne Hall) as [Hb Hn].
    split; [|split; assumption].
    apply as_ndarray_rectangular. eapply patches_rectangular, Hall.
  - intros Ha. split; [reflexivity|]. split; [exact Ha|reflexivity].
Qed.
End Normalise.
End ArrayFacts.

(** ** The wrapper adds no state and no check of its own *)

Section WrapperFacts.
Context {elt W : Type} `{NumpyRagged elt}.
Implicit Types (self : IncrementalCorrelationFilterThinWrapper elt W).
Implicit Types (X : patches elt) (t A B : ndarray elt) (w : W).

(** Normalising the input reads and writes no state. *)
Lemma as_ndarray_run X w :
  as_ndarray X w = ((as_ndarray X w).1, w).
Proof. destruct X; reflexivity. Qed.

Lemma as_ndarray_outcome X w w' :
  (as_ndarray X w).1 = (as_ndarray X w').1.
Proof. destruct X; reflexivity. Qed.

Lemma train_run self X t w :
  train self X t w =
  match (as_ndarray X w).1 with
  | Return a => cf_callable self a t w
  | Raise e => (Raise e, w)
  end.
Proof. unfold train. rewrite bind_run. destruct X; simpl; [|done].
       unfold lift. destruct (np_asarray members); reflexivity. Qed.

Lemma increment_run self A B n_x X t w :
  increment self A B n_x X t w =
  match (as_ndarray X w).1 with
  | Return a => icf_callable self A B n_x a t w
  | Raise e => (Raise e, w)
  end.
Proof. unfold increment. rewrite bind_run. destruct X; simpl; [|done].
       unfold lift. destruct (np_asarray members); reflexivity. Qed.

(** On well-formed arguments the wrapper returns what the solver
    returns on the batch array. *)
Lemma train_batch self g X t w :
  is_batch g X = true →
  train self X t w = cf_callable self (as_array X) t w.
Proof.
  intros HX. destruct (as_ndarray_batch g X w HX) as (Hrun & _ & _).
  rewrite train_run, Hrun. reflexivity.
Qed.

Lemma increment_batch self g A B n_x X t w :
  is_batch g X = true →
  increment self A B n_x X t w = icf_callable self A B n_x (as_array X) t w.
Proof.
  intros HX. destruct (as_ndarray_batch g X w HX) as (Hrun & _ & _).
  rewrite increment_run, Hrun. reflexivity.
Qed.
End WrapperFacts.

(** ** The reference solver keeps the documented contract *)

Lemma zeros_well_formed s : well_formed (zeros s) = true.
Proof.
  unfold zeros. simpl. apply bool_decide_eq_true, length_replicate.
Qed.

Lemma is_batch_array_spec {elt} g (a : ndarray elt) :
  is_batch_array g a = true →
  ∃ n d, a = Dense [n; n_channels g; patch_h g; patch_w g] d ∧ (1 ≤ n)%nat.
Proof.
  unfold is_batch_array. rewrite andb_true_iff. intros [Hwf Hs].
  destruct a as [s d|items]; [|discriminate]. simpl in Hs.
  destruct s as [|n [|c [|h [|w' [|? ?]]]]]; try discriminate.
  apply andb_true_iff in Hs as [Hn Hc].
  apply bool_decide_eq_true in Hn. apply bool_decide_eq_true in Hc.
  injection Hc as -> -> ->. eauto.
Qed.

Lemma N_of_nat g :
  wf_geometry g = true →
  Z.of_nat ((patch_h g + response_h g - 1) * (patch_w g + response_w g - 1)
            * n_channels g) = N_of g.
Proof.
  unfold wf_geometry, N_of. rewrite !andb_true_iff, !bool_decide_eq_true.
  intros ((((? & ?) & ?) & ?) & ?).
  rewrite !Nat2Z.inj_mul, !Nat2Z.inj_sub, !Nat2Z.inj_add by lia. reflexivity.
Qed.

Lemma zeros_output_ok g a t :
  wf_geometry g = true → is_batch_array g a = true → is_response g t = true →
  ∃ r, zeros_output a t = Return r ∧ is_output g r = true.
Proof.
  intros Hg Ha Ht.
  apply is_batch_array_spec in Ha as (n & d & -> & _).
  unfold is_response in Ht. apply andb_true_iff in Ht as [_ Ht].
  apply has_shape_spec in Ht as [d' ->].
  eexists. split; [reflexivity|].
  unfold is_output, is_statistics.
  cbn [correlation_filter auto_correlation cross_correlation fst snd].
  rewrite !zeros_well_formed. unfold zeros.
  cbn [has_shape shape fmap list_fmap andb].
  rewrite (N_of_nat g Hg).
  rewrite !bool_decide_eq_true_2 by reflexivity. reflexivity.
Qed.

Lemma zeros_cf_contract : cf_contract zeros_cf.
Proof.
  intros g a t w Hg Ha Ht.
  destruct (zeros_output_ok g a t) as (r & Hr & Hok);
    [by apply Is_true_true..|].
  exists r, (S w). unfold zeros_cf. rewrite Hr. split; [done|].
  by apply Is_true_true.
Qed.

Lemma zeros_icf_contract : icf_contract zeros_icf.
Proof.
  intros g A B n_x a t w Hg _ Ha Ht.
  destruct (zeros_output_ok g a t) as (r & Hr & Hok);
    [by apply Is_true_true..|].
  exists r, (S w). unfold zeros_icf. rewrite Hr. split; [done|].
  by apply Is_true_true.
Qed.


(** ** Claims about the wrapper *)

Section WrapperClaims.
Context {elt W : Type} `{NumpyRagged elt}.
Implicit Types (self : IncrementalCorrelationFilterThinWrapper elt W).
Implicit Types (X : patches elt) (t A B : ndarray elt) (w : W).
Implicit Types (L : list (ndarray elt)).

(** C9.  For a rectangular list [L], [train] and [increment] called with
    the list return exactly what they return when called with the array
    that stacks the members of [L]: the same outcome and the same
    state. *)
Theorem list_and_array_forms_agree self L t A B n_x w :
  rectangular L = true →
  train self (PyList L) t w = train self (PyArray (stack L)) t w
  ∧ increment self A B n_x (PyList L) t w
    = increment self A B n_x (PyArray (stack L)) t w.
Proof.
  intros Hrect. rewrite !train_run, !increment_run.
  rewrite (as_ndarray_rectangular L w Hrect). split; reflexivity.
Qed.

(** C3, as amended.  A list given to [train] or [increment] goes through
    [np.asarray] before the solver is invoked.  When its members share
    one shape the solver receives the single stacked array, which for a
    non-empty list of patches is the 4-dimensional batch of as many
    images.  For a ragged list the wrapper makes no check of its own: the
    call raises what [np.asarray] raises, leaving the solver uncalled and
    the state as it was, or hands the solver the array that [np.asarray]
    built. *)
Theorem list_normalised_by_asarray self L t A B n_x w :
  train self (PyList L) t w
  = (if rectangular L then cf_callable self (stack L) t w
     else match asarray_ragged L with
          | Return a => cf_callable self a t w
          | Raise e => (Raise e, w)
          end)
  ∧ increment self A B n_x (PyList L) t w
    = (if rectangular L then icf_callable self A B n_x (stack L) t w
       else match asarray_ragged L with
            | Return a => icf_callable self A B n_x a t w
            | Raise e => (Raise e, w)
            end)
  ∧ ∀ g, L ≠ [] → forallb (is_patch g) L = true →
      rectangular L = true
      ∧ stack L
        = Dense [length L; n_channels g; patch_h g; patch_w g]
                (concat (flat <$> L))
      ∧ well_formed (stack L) = true.
Proof.
  split; [|split].
  - rewrite train_run. simpl. unfold np_asarray.
    destruct (rectangular L); [reflexivity|].
    destruct (asarray_ragged L); reflexivity.
  - rewrite increment_run. simpl. unfold np_asarray.
    destruct (rectangular L); [reflexivity|].
    destruct (asarray_ragged L); reflexivity.
  - intros g Hne Hall. split; [eapply patches_rectangular, Hall|].
    destruct (stack_is_batch_array g L Hne Hall) as [Hb _].
    unfold is_batch_array in Hb. apply andb_true_iff in Hb as [Hwf _].
    split; [|exact Hwf].
    destruct L as [|a rest]; [done|]. simpl in Hall.
    apply andb_true_iff in Hall as [Ha _].
    apply is_patch_spec in Ha as (d & -> & _). reflexivity.
Qed.

(** C2, as amended.  [increment] compares the statistics with nothing:
    [A], [B] and [n_x] reach the incremental solver as they were given,
    together with the normalised batch and the response, and the call
    ends as the solver's call ends, whether or not the statistics fit
    the geometry of the batch.  It raises only what normalising the
    batch raises or what the solver raises. *)
Theorem increment_forwards_statistics self A B n_x X t w :
  increment self A B n_x X t w
  = match (as_ndarray X w).1 with
    | Return a => icf_callable self A B n_x a t w
    | Raise e => (Raise e, w)
    end
  ∧ (∀ g, is_batch g X = true →
       increment self A B n_x X t w
       = icf_callable self A B n_x (as_array X) t w)
  ∧ (∀ e, (increment self A B n_x X t w).1 = Raise e →
       (as_ndarray X w).1 = Raise e
       ∨ ∃ a, (as_ndarray X w).1 = Return a
              ∧ (icf_callable self A B n_x a t w).1 = Raise e).
Proof.
  split; [apply increment_run|]. split.
  - intros g HX. by eapply increment_batch.
  - intros e. rewrite increment_run.
    destruct (as_ndarray X w).1 as [a|e'] eqn:Hnorm.
    + intros He. right. eauto.
    + simpl. intros [= ->]. by left.
Qed.

(** A call leaves the state as the solver leaves it. *)
Lemma train_state_kept self X t w :
  (∀ a w', (cf_callable self a t w').2 = w') → (train self X t w).2 = w.
Proof.
  intros Hquiet. rewrite train_run.
  destruct (as_ndarray X w).1; [apply Hquiet|reflexivity].
Qed.

Lemma increment_state_kept self A B n_x X t w :
  (∀ a w', (icf_callable self A B n_x a t w').2 = w') →
  (increment self A B n_x X t w).2 = w.
Proof.
  intros Hquiet. rewrite increment_run.
  destruct (as_ndarray X w).1; [apply Hquiet|reflexivity].
Qed.

Lemma perform_all_kept self (earlier : list (call elt)) w :
  (∀ a t w', (cf_callable self a t w').2 = w') →
  (∀ A B n_x a t w', (icf_callable self A B n_x a t w').2 = w') →
  perform_all self earlier w = w.
Proof.
  intros Hcf Hicf. revert w.
  induction earlier as [|[X t|A B n_x X t] rest IH]; intros w;
    [reflexivity| |]; cbn [perform_all perform].
  - rewrite train_state_kept by (intros; apply Hcf). apply IH.
  - rewrite increment_state_kept by (intros; apply Hicf). apply IH.
Qed.

(** C4, as amended.  [train] and [increment] add no state and no
    randomness of their own: normalising the input ends the same way in
    every state, and a call ends, in outcome and in state, as the one
    call of the solver on the normalised input ends in the state the
    call is made in.  So for a solver that leaves the state as it found
    it, two calls with identical arguments made one after the other
    return identical results; a solver with memory can tell them
    apart. *)
Theorem wrapper_adds_no_state self X t A B n_x w :
  (∀ w', (as_ndarray X w').1 = (as_ndarray X w).1)
  ∧ train self X t w
    = match (as_ndarray X w).1 with
      | Return a => cf_callable self a t w
      | Raise e => (Raise e, w)
      end
  ∧ increment self A B n_x X t w
    = match (as_ndarray X w).1 with
      | Return a => icf_callable self A B n_x a t w
      | Raise e => (Raise e, w)
      end
  ∧ ((∀ a w', (cf_callable self a t w').2 = w') →
     train self X t (train self X t w).2 = train self X t w)
  ∧ ((∀ a w', (icf_callable self A B n_x a t w').2 = w') →
     increment self A B n_x X t (increment self A B n_x X t w).2
     = increment self A B n_x X t w).
Proof.
  split_and!.
  - intros w'. apply as_ndarray_outcome.
  - apply train_run.
  - apply increment_run.
  - intros Hquiet. by rewrite train_state_kept.
  - intros Hquiet. by rewrite increment_state_kept.
Qed.

(** C8, as amended.  The instance keeps the two callables and nothing
    else, and no method assigns them, so [train] has nothing of the
    instance to overwrite: after any calls of [train] and [increment] it
    ends as the solver ends on the normalised patches and the response,
    in the state those calls left.  For callables that leave the state
    as they found it the earlier calls leave no trace, and [train]
    returns exactly what it returns on an instance that was never used;
    a solver with memory carries the earlier calls into the result. *)
Theorem train_after_earlier_calls self :
  (∀ (earlier : list (call elt)) X t w,
     train self X t (perform_all self earlier w)
     = match (as_ndarray X w).1 with
       | Return a => cf_callable self a t (perform_all self earlier w)
       | Raise e => (Raise e, perform_all self earlier w)
       end)
  ∧ ((∀ a t w', (cf_callable self a t w').2 = w') →
     (∀ A B n_x a t w', (icf_callable self A B n_x a t w').2 = w') →
     ∀ (earlier : list (call elt)) X t w,
       perform_all self earlier w = w
       ∧ train self X t (perform_all self earlier w) = train self X t w).
Proof.
  split.
  - intros earlier X t w.
    by rewrite train_run, (as_ndarray_outcome X _ w).
  - intros Hcf Hicf earlier X t w.
    by rewrite (perform_all_kept self earlier w Hcf Hicf).
Qed.
End WrapperClaims.

(** What the calls above return on the sample inputs. *)

Example train_sample_list :
  @train Z nat strict_numpy zeros_wrapper sample_batch_1 sample_response 0%nat
  = (Return (zeros [1; 2; 2]%nat, zeros [9%nat], zeros [9; 9]%nat), 1%nat).
Proof. reflexivity. Qed.

Example train_ragged_strict :
  @train Z nat strict_numpy zeros_wrapper (PyList ragged_list)
    sample_response 0%nat
  = (Raise ValueError, 0%nat).
Proof. reflexivity. Qed.

Example train_ragged_boxing :
  @train Z nat boxing_numpy zeros_wrapper (PyList ragged_list)
    sample_response 0%nat
  = (Raise ValueError, 1%nat).
Proof. reflexivity. Qed.

Example increment_stale_statistics :
  @increment Z nat strict_numpy zeros_wrapper stale_auto_correlation
    stale_cross_correlation 5 sample_batch_1 sample_response 0%nat
  = (Return (zeros [1; 2; 2]%nat, zeros [9%nat], zeros [9; 9]%nat), 1%nat).
Proof. reflexivity. Qed.

Lemma list_and_array_forms_agree_witness :
  rectangular sample_list = true
  ∧ @train Z nat strict_numpy zeros_wrapper (PyList sample_list)
      sample_response 0%nat
    = @train Z nat strict_numpy zeros_wrapper (PyArray (stack sample_list))
        sample_response 0%nat
  ∧ @increment Z nat strict_numpy zeros_wrapper (zeros [9%nat])
      (zeros [9; 9]%nat) 5 (PyList sample_list) sample_response 0%nat
    = @increment Z nat strict_numpy zeros_wrapper (zeros [9%nat])
        (zeros [9; 9]%nat) 5 (PyArray (stack sample_list)) sample_response
        0%nat.
Proof.
  split; [reflexivity|].
  apply (list_and_array_forms_agree (H:=strict_numpy)). reflexivity.
Defined.

(** The claim C3 fails on a ragged list: under either behaviour of
    [np.asarray], neither [train] nor [increment] ends in
    [ShapeMismatchError]. *)
Lemma ragged_list_counterexample :
  rectangular ragged_list = false
  ∧ (@train Z nat strict_numpy zeros_wrapper (PyList ragged_list)
       sample_response 0%nat).1 ≠ Raise ShapeMismatchError
  ∧ (@train Z nat boxing_numpy zeros_wrapper (PyList ragged_list)
       sample_response 0%nat).1 ≠ Raise ShapeMismatchError
  ∧ (@increment Z nat strict_numpy zeros_wrapper (zeros [9%nat])
       (zeros [9; 9]%nat) 5 (PyList ragged_list) sample_response 0%nat).1
    ≠ Raise ShapeMismatchError
  ∧ (@increment Z nat boxing_numpy zeros_wrapper (zeros [9%nat])
       (zeros [9; 9]%nat) 5 (PyList ragged_list) sample_response 0%nat).1
    ≠ Raise ShapeMismatchError.
Proof. repeat split; discriminate. Qed.

Lemma list_normalised_by_asarray_witness :
  sample_list ≠ [] ∧ forallb (is_patch sample_geometry) sample_list = true
  ∧ rectangular sample_list = true
  ∧ stack sample_list
    = Dense [2; 1; 2; 2]%nat (concat (flat <$> sample_list))
  ∧ well_formed (stack sample_list) = true.
Proof.
  split; [discriminate|]. split; [reflexivity|].
  apply (proj2 (proj2 (list_normalised_by_asarray (H:=strict_numpy)
           zeros_wrapper sample_list sample_response (zeros [9%nat])
           (zeros [9; 9]%nat) 5 0%nat)) sample_geometry);
    [discriminate|reflexivity].
Defined.

(** The claim C2 fails on statistics of another geometry: with a solver
    that keeps the documented contract, the call returns. *)
Lemma stale_statistics_counterexample :
  icf_contract zeros_icf
  ∧ is_statistics sample_geometry stale_auto_correlation
      stale_cross_correlation = false
  ∧ is_batch sample_geometry sample_batch_1 = true
  ∧ is_response sample_geometry sample_response = true
  ∧ (@increment Z nat strict_numpy zeros_wrapper stale_auto_correlation
       stale_cross_correlation 5 sample_batch_1 sample_response 0%nat).1
    ≠ Raise DimensionMismatchError.
Proof. split; [exact zeros_icf_contract|]. repeat split; discriminate. Qed.

Lemma increment_forwards_statistics_witness :
  is_batch sample_geometry sample_batch_1 = true
  ∧ @increment Z nat strict_numpy zeros_wrapper stale_auto_correlation
      stale_cross_correlation 5 sample_batch_1 sample_response 0%nat
    = zeros_icf stale_auto_correlation stale_cross_correlation 5
        (as_array sample_batch_1) sample_response 0%nat.
Proof.
  split; [reflexivity|].
  apply (proj1 (proj2 (increment_forwards_statistics (H:=strict_numpy)
           zeros_wrapper stale_auto_correlation stale_cross_correlation 5
           sample_batch_1 sample_response 0%nat)) sample_geometry).
  reflexivity.
Defined.

Lemma wrapper_adds_no_state_witness :
  (∀ a w', (cf_callable quiet_wrapper a sample_response w').2 = w')
  ∧ @train Z nat strict_numpy quiet_wrapper sample_batch_1 sample_response
      (@train Z nat strict_numpy quiet_wrapper sample_batch_1
         sample_response 3%nat).2
    = @train Z nat strict_numpy quiet_wrapper sample_batch_1 sample_response
        3%nat.
Proof.
  split; [reflexivity|].
  apply (proj1 (proj2 (proj2 (proj2 (wrapper_adds_no_state (H:=strict_numpy)
           quiet_wrapper sample_batch_1 sample_response (zeros [9%nat])
           (zeros [9; 9]%nat) 5 3%nat))))).
  reflexivity.
Defined.

(** The claim C4 fails for a solver with memory: the second of two
    identical calls returns something else. *)
Lemma solver_with_memory_counterexample :
  (@train Z nat strict_numpy counting_wrapper sample_batch_1 sample_response
     (@train Z nat strict_numpy counting_wrapper sample_batch_1
        sample_response 0%nat).2).1
  ≠ (@train Z nat strict_numpy counting_wrapper sample_batch_1
       sample_response 0%nat).1
  ∧ (@increment Z nat strict_numpy counting_wrapper (zeros [9%nat])
       (zeros [9; 9]%nat) 5 sample_batch_1 sample_response
       (@increment Z nat strict_numpy counting_wrapper (zeros [9%nat])
          (zeros [9; 9]%nat) 5 sample_batch_1 sample_response 0%nat).2).1
    ≠ (@increment Z nat strict_numpy counting_wrapper (zeros [9%nat])
         (zeros [9; 9]%nat) 5 sample_batch_1 sample_response 0%nat).1.
Proof. split; discriminate. Qed.

Lemma train_after_earlier_calls_witness :
  (∀ a t w', (cf_callable quiet_wrapper a t w').2 = w')
  ∧ (∀ A B n_x a t w', (icf_callable quiet_wrapper A B n_x a t w').2 = w')
  ∧ perform_all (H:=strict_numpy) quiet_wrapper
      [CallTrain sample_batch_1 sample_response;
       CallIncrement (zeros [9%nat]) (zeros [9; 9]%nat) 2 sample_batch_1
         sample_response] 3%nat = 3%nat
  ∧ @train Z nat strict_numpy quiet_wrapper sample_batch_2 sample_response
      (perform_all (H:=strict_numpy) quiet_wrapper
         [CallTrain sample_batch_1 sample_response;
          CallIncrement (zeros [9%nat]) (zeros [9; 9]%nat) 2 sample_batch_1
            sample_response] 3%nat)
    = @train Z nat strict_numpy quiet_wrapper sample_batch_2 sample_response
        3%nat.
Proof.
  split; [reflexivity|]. split; [reflexivity|].
  apply (proj2 (train_after_earlier_calls (H:=strict_numpy) quiet_wrapper)
           (λ _ _ _, eq_refl) (λ _ _ _ _ _ _, eq_refl)
           [CallTrain sample_batch_1 sample_response;
            CallIncrement (zeros [9%nat]) (zeros [9; 9]%nat) 2 sample_batch_1
              sample_response]
           sample_batch_2 sample_response 3%nat).
Defined.

(** The claim C8 fails for a solver with memory: after an earlier call
    [train] returns something else than on a fresh instance. *)
Lemma earlier_call_counterexample :
  (@train Z nat strict_numpy counting_wrapper sample_batch_2 sample_response
     (perform_all (H:=strict_numpy) counting_wrapper
        [CallIncrement (zeros [9%nat]) (zeros [9; 9]%nat) 2 sample_batch_1
           sample_response] 0%nat)).1
  ≠ (@train Z nat strict_numpy counting_wrapper sample_batch_2
       sample_response 0%nat).1.
Proof. discriminate. Qed.

(** ** Batches and their union *)

Section BatchFacts.
Context {elt : Type}.
Implicit Types (a : ndarray elt) (X : patches elt) (g : geometry).

Lemma is_batch_array_iff g a :
  is_batch_array g a = true ↔
  ∃ n d, a = Dense [n; n_channels g; patch_h g; patch_w g] d
         ∧ (1 ≤ n)%nat
         ∧ length d
           = (n * size_of [n_channels g; patch_h g; patch_w g])%nat.
Proof.
  split.
  - intros Ha. destruct (is_batch_array_spec g a Ha) as (n & d & -> & Hn).
    exists n, d. split; [done|]. split; [done|].
    unfold is_batch_array in Ha. apply andb_true_iff in Ha as [Hwf _].
    simpl in Hwf. apply bool_decide_eq_true in Hwf. rewrite Hwf.
    simpl. lia.
  - intros (n & d & -> & Hn & Hd). unfold is_batch_array.
    simpl. rewrite !andb_true_iff, !bool_decide_eq_true.
    split; [|done]. rewrite Hd. simpl. lia.
Qed.

Lemma as_array_batch g X :
  is_batch g X = true →
  is_batch_array g (as_array X) = true
  ∧ hd 0%nat (shape (as_array X)) = len X.
Proof.
  destruct X as [l|a]; simpl is_batch.
  - rewrite andb_true_iff, bool_decide_eq_true. intros [Hne Hall].
    by apply stack_is_batch_array.
  - intros Ha. split; [exact Ha|reflexivity].
Qed.

Lemma concatenate_batch_arrays g a b :
  is_batch_array g a = true → is_batch_array g b = true →
  is_batch_array g (concatenate a b) = true
  ∧ hd 0%nat (shape (concatenate a b))
    = (hd 0%nat (shape a) + hd 0%nat (shape b))%nat.
Proof.
  rewrite !is_batch_array_iff.
  intros (n & d & -> & Hn & Hd) (m & d' & -> & Hm & Hd').
  split; [|reflexivity]. exists (n + m)%nat, (d ++ d').
  split; [reflexivity|]. split; [lia|]. rewrite length_app, Hd, Hd'. lia.
Qed.

(** The union of two batches of one geometry is a batch of that
    geometry with the images of both. *)
Lemma batch_union_is_batch g (B1 B2 : patches elt) :
  is_batch g B1 = true → is_batch g B2 = true →
  is_batch g (batch_union B1 B2) = true
  ∧ len (batch_union B1 B2) = (len B1 + len B2)%nat.
Proof.
  intros H1 H2.
  assert (is_batch_array g (concatenate (as_array B1) (as_array B2)) = true
          ∧ hd 0%nat (shape (concatenate (as_array B1) (as_array B2)))
            = (len B1 + len B2)%nat) as Hcat.
  { destruct (as_array_batch g B1 H1) as [Ha1 <-].
    destruct (as_array_batch g B2 H2) as [Ha2 <-].
    by apply concatenate_batch_arrays. }
  destruct B1 as [l1|a1], B2 as [l2|a2]; try exact Hcat.
  simpl in *. rewrite andb_true_iff, bool_decide_eq_true in H1, H2.
  destruct H1 as [Hne1 Hall1], H2 as [_ Hall2]. split.
  - rewrite andb_true_iff, bool_decide_eq_true. split.
    + destruct l1; [done|discriminate].
    + rewrite forallb_app, Hall1, Hall2. reflexivity.
  - apply length_app.
Qed.

Lemma is_output_spec g (r : cf_result elt) :
  is_output g r = true →
  shape (correlation_filter r)
  = [n_channels g; response_h g; response_w g]
  ∧ Z.of_nat <$> shape (auto_correlation r) = [N_of g]
  ∧ Z.of_nat <$> shape (cross_correlation r) = [N_of g; N_of g]
  ∧ is_statistics g (auto_correlation r) (cross_correlation r) = true.
Proof.
  unfold is_output. rewrite andb_true_iff. intros [Hf Hs].
  apply has_shape_spec in Hf as [d Hf]. rewrite Hf.
  split; [reflexivity|]. unfold is_statistics in Hs |- *.
  rewrite !andb_true_iff, !bool_decide_eq_true in Hs.
  destruct Hs as (((HA & HB) & HsA) & HsB).
  split; [done|]. split; [done|].
  rewrite HA, HB. rewrite !bool_decide_eq_true_2 by done. reflexivity.
Qed.
End BatchFacts.

(** ** Claims about the shapes and the sample count *)

Section ContractClaims.
Context {elt W : Type} `{NumpyRagged elt}.
Implicit Types (self : IncrementalCorrelationFilterThinWrapper elt W).
Implicit Types (X : patches elt) (t A B : ndarray elt) (w : W).
Implicit Types (g : geometry).

Lemma train_returns self g X t w :
  cf_contract (cf_callable self) →
  wf_geometry g = true → is_batch g X = true → is_response g t = true →
  ∃ r w', train self X t w = (Return r, w') ∧ is_output g r = true.
Proof.
  intros Hcf Hg HX Ht. rewrite (train_batch self g X t w HX).
  destruct (as_array_batch g X HX) as [Ha _].
  destruct (Hcf g (as_array X) t w) as (r & w' & Hr & Hok);
    [by apply Is_true_true..|].
  exists r, w'. split; [done|]. by apply Is_true_true.
Qed.

Lemma increment_returns self g A B n_x X t w :
  icf_contract (icf_callable self) →
  wf_geometry g = true → is_statistics g A B = true →
  is_batch g X = true → is_response g t = true →
  ∃ r w', increment self A B n_x X t w = (Return r, w')
          ∧ is_output g r = true.
Proof.
  intros Hicf Hg Hs HX Ht. rewrite (increment_batch self g A B n_x X t w HX).
  destruct (as_array_batch g X HX) as [Ha _].
  destruct (Hicf g A B n_x (as_array X) t w) as (r & w' & Hr & Hok);
    [by apply Is_true_true..|].
  exists r, w'. split; [done|]. by apply Is_true_true.
Qed.

(** A chain of [increment] calls on well-formed batches returns, and
    the statistics it returns have the documented shapes again. *)
Lemma increment_repeatedly_returns self g t
    (steps : list (Z * patches elt)) :
  icf_contract (icf_callable self) →
  wf_geometry g = true → is_response g t = true →
  forallb (λ step, is_batch g step.2) steps = true →
  ∀ r w,
    is_statistics g (auto_correlation r) (cross_correlation r) = true →
    ∃ r' w',
      increment_repeatedly self r steps t w = (Return r', w')
      ∧ is_statistics g (auto_correlation r') (cross_correlation r') = true.
Proof.
  intros Hicf Hg Ht. induction steps as [|[n_x b] rest IH]; intros Hall r w Hs.
  - by exists r, w.
  - simpl in Hall. apply andb_true_iff in Hall as [Hb Hrest].
    destruct (increment_returns self g _ _ n_x b t w Hicf Hg Hs Hb Ht)
      as (r1 & w1 & Hrun & Hr1).
    apply is_output_spec in Hr1 as (_ & _ & _ & Hs1).
    destruct (IH Hrest r1 w1 Hs1) as (r' & w' & Hrun' & Hr').
    exists r', w'. split; [|done]. cbn [increment_repeatedly fst snd].
    by rewrite (bind_returns _ _ _ _ _ Hrun).
Qed.

(** C5.  On well-formed input [train] and [increment] both return, and
    both return a filter of shape (channel_count, response_height,
    response_width), an auto-correlation array of shape (N,) and a
    cross-correlation array of shape (N, N), for the N of the patch and
    response geometry, whether the patches come as a list or as an
    array. *)
Theorem train_increment_output_shape self g X t A B n_x w :
  cf_contract (cf_callable self) → icf_contract (icf_callable self) →
  wf_geometry g = true → is_batch g X = true → is_response g t = true →
  is_statistics g A B = true →
  (∃ r w', train self X t w = (Return r, w')
     ∧ shape (correlation_filter r)
       = [n_channels g; response_h g; response_w g]
     ∧ Z.of_nat <$> shape (auto_correlation r) = [N_of g]
     ∧ Z.of_nat <$> shape (cross_correlation r) = [N_of g; N_of g])
  ∧ (∃ r w', increment self A B n_x X t w = (Return r, w')
     ∧ shape (correlation_filter r)
       = [n_channels g; response_h g; response_w g]
     ∧ Z.of_nat <$> shape (auto_correlation r) = [N_of g]
     ∧ Z.of_nat <$> shape (cross_correlation r) = [N_of g; N_of g]).
Proof.
  intros Hcf Hicf Hg HX Ht Hs. split.
  - destruct (train_returns self g X t w Hcf Hg HX Ht) as (r & w' & Hr & Hok).
    exists r, w'. apply is_output_spec in Hok. tauto.
  - destruct (increment_returns self g A B n_x X t w Hicf Hg Hs HX Ht)
      as (r & w' & Hr & Hok).
    exists r, w'. apply is_output_spec in Hok. tauto.
Qed.

(** C1, as amended.  [increment] takes the sample count as its argument
    [n_x] and returns the filter and the two statistics arrays only: no
    count comes back, it is the caller's to keep.  With a solver that
    keeps the documented contract, [increment] on well-formed statistics
    with a batch B1, and then on what it returned with a batch B2 of the
    same geometry, returns; the solver is handed the count n with |B1|
    images and then n + |B1| with |B2| images, where one call on the
    union of B1 and B2 hands it n with |B1| + |B2| images; and
    [increment] can be chained over any number of batches, each call on
    the result of the one before. *)
Theorem increment_chains_on_its_result
    self g A B n (B1 B2 : patches elt) t w :
  icf_contract (icf_callable self) →
  wf_geometry g = true → is_statistics g A B = true →
  is_batch g B1 = true → is_batch g B2 = true → is_response g t = true →
  (∃ r1 w1 r2 w2,
     increment self A B n B1 t w = (Return r1, w1)
     ∧ icf_callable self A B n (as_array B1) t w = (Return r1, w1)
     ∧ hd 0%nat (shape (as_array B1)) = len B1
     ∧ increment self (auto_correlation r1) (cross_correlation r1)
         (n + Z.of_nat (len B1)) B2 t w1 = (Return r2, w2)
     ∧ icf_callable self (auto_correlation r1) (cross_correlation r1)
         (n + Z.of_nat (len B1)) (as_array B2) t w1 = (Return r2, w2)
     ∧ hd 0%nat (shape (as_array B2)) = len B2
     ∧ is_output g r2 = true)
  ∧ (∃ r w',
       increment self A B n (batch_union B1 B2) t w = (Return r, w')
       ∧ icf_callable self A B n (as_array (batch_union B1 B2)) t w
         = (Return r, w')
       ∧ hd 0%nat (shape (as_array (batch_union B1 B2)))
         = (len B1 + len B2)%nat
       ∧ is_output g r = true)
  ∧ (∀ (steps : list (Z * patches elt)) r0,
       forallb (λ step, is_batch g step.2) steps = true →
       auto_correlation r0 = A → cross_correlation r0 = B →
       ∃ r w',
         increment_repeatedly self r0 steps t w = (Return r, w')
         ∧ is_statistics g (auto_correlation r) (cross_correlation r)
           = true).
Proof.
  intros Hicf Hg Hs H1 H2 Ht. split; [|split].
  - destruct (increment_returns self g A B n B1 t w Hicf Hg Hs H1 Ht)
      as (r1 & w1 & Hrun1 & Hr1).
    pose proof Hr1 as Hr1'. apply is_output_spec in Hr1' as (_ & _ & _ & Hs1).
    destruct (increment_returns self g _ _ (n + Z.of_nat (len B1)) B2 t w1
                Hicf Hg Hs1 H2 Ht) as (r2 & w2 & Hrun2 & Hr2).
    destruct (as_array_batch g B1 H1) as [_ Hlen1].
    destruct (as_array_batch g B2 H2) as [_ Hlen2].
    exists r1, w1, r2, w2. split_and!; try done.
    + by rewrite <- (increment_batch self g A B n B1 t w H1).
    + by rewrite <- (increment_batch self g _ _ _ B2 t w1 H2).
  - destruct (batch_union_is_batch g B1 B2 H1 H2) as [HU HlenU].
    destruct (increment_returns self g A B n (batch_union B1 B2) t w
                Hicf Hg Hs HU Ht) as (r & w' & Hrun & Hr).
    destruct (as_array_batch g _ HU) as [_ Hlen].
    exists r, w'. split_and!; try done.
    + by rewrite <- (increment_batch self g A B n _ t w HU).
    + by rewrite Hlen.
  - intros steps r0 Hall HA HB.
    apply (increment_repeatedly_returns self g t steps Hicf Hg Ht Hall).
    by rewrite HA, HB.
Qed.
End ContractClaims.

Lemma train_increment_output_shape_witness :
  cf_contract zeros_cf ∧ icf_contract zeros_icf
  ∧ wf_geometry sample_geometry = true
  ∧ is_batch sample_geometry sample_batch_1 = true
  ∧ is_response sample_geometry sample_response = true
  ∧ is_statistics sample_geometry (zeros [9%nat]) (zeros [9; 9]%nat) = true
  ∧ ∃ r w',
      @increment Z nat strict_numpy zeros_wrapper (zeros [9%nat])
        (zeros [9; 9]%nat) 5 sample_batch_1 sample_response 0%nat
      = (Return r, w')
      ∧ shape (correlation_filter r) = [1; 2; 2]%nat
      ∧ Z.of_nat <$> shape (auto_correlation r) = [9]
      ∧ Z.of_nat <$> shape (cross_correlation r) = [9; 9].
Proof.
  split; [exact zeros_cf_contract|]. split; [exact zeros_icf_contract|].
  do 4 (split; [reflexivity|]).
  apply (proj2 (train_increment_output_shape (H:=strict_numpy) zeros_wrapper
           sample_geometry sample_batch_1 sample_response (zeros [9%nat])
           (zeros [9; 9]%nat) 5 0%nat zeros_cf_contract zeros_icf_contract
           eq_refl eq_refl eq_refl eq_refl)).
Defined.

Lemma increment_chains_on_its_result_witness :
  icf_contract zeros_icf
  ∧ wf_geometry sample_geometry = true
  ∧ is_statistics sample_geometry (zeros [9%nat]) (zeros [9; 9]%nat) = true
  ∧ is_batch sample_geometry sample_batch_1 = true
  ∧ is_batch sample_geometry sample_batch_2 = true
  ∧ is_response sample_geometry sample_response = true
  ∧ ∃ r w',
      @increment Z nat strict_numpy zeros_wrapper (zeros [9%nat])
        (zeros [9; 9]%nat) 5 (batch_union sample_batch_1 sample_batch_2)
        sample_response 0%nat = (Return r, w')
      ∧ zeros_icf (zeros [9%nat]) (zeros [9; 9]%nat) 5
          (as_array (batch_union sample_batch_1 sample_batch_2))
          sample_response 0%nat = (Return r, w')
      ∧ hd 0%nat (shape (as_array (batch_union sample_batch_1
                                     sample_batch_2))) = (2 + 1)%nat
      ∧ is_output sample_geometry r = true.
Proof.
  split; [exact zeros_icf_contract|].
  do 5 (split; [reflexivity|]).
  apply (proj1 (proj2 (increment_chains_on_its_result (H:=strict_numpy)
           zeros_wrapper sample_geometry (zeros [9%nat]) (zeros [9; 9]%nat)
           5 sample_batch_1 sample_batch_2 sample_response 0%nat
           zeros_icf_contract eq_refl eq_refl eq_refl eq_refl eq_refl))).
Defined.

(** The claim C1 fails on what [increment] returns: with a solver that
    keeps the documented contract, the same triple comes back whatever
    count the call was given, so nothing in it is that count plus the
    size of the batch. *)
Lemma no_count_in_result_counterexample :
  icf_contract zeros_icf
  ∧ is_statistics sample_geometry (zeros [9%nat]) (zeros [9; 9]%nat) = true
  ∧ is_batch sample_geometry sample_batch_1 = true
  ∧ is_response sample_geometry sample_response = true
  ∧ (@increment Z nat strict_numpy zeros_wrapper (zeros [9%nat])
       (zeros [9; 9]%nat) 0 sample_batch_1 sample_response 0%nat).1
    = (@increment Z nat strict_numpy zeros_wrapper (zeros [9%nat])
         (zeros [9; 9]%nat) 5 sample_batch_1 sample_response 0%nat).1
  ∧ ¬ ∃ count_of : cf_result Z → Z,
        ∀ n, ∃ r,
          (@increment Z nat strict_numpy zeros_wrapper (zeros [9%nat])
             (zeros [9; 9]%nat) n sample_batch_1 sample_response 0%nat).1
          = Return r
          ∧ count_of r = n + Z.of_nat (len sample_batch_1).
Proof.
  split; [exact zeros_icf_contract|]. do 4 (split; [reflexivity|]).
  intros [count_of Hcount].
  destruct (Hcount 0) as (r0 & Hr0 & H0).
  destruct (Hcount 5) as (r5 & Hr5 & H5).
  injection Hr0 as <-. injection Hr5 as <-. rewrite H0 in H5. discriminate.
Qed.

(** ** Claims about the alignment algorithm *)

Section AlignmentClaims.
Context {Image ShapeEstimate : Type}.
Context (reconstruct : ShapeEstimate → ShapeEstimate).
Context (update : Image → ShapeEstimate → outcome ShapeEstimate).
Context (converged : ShapeEstimate → ShapeEstimate → bool).


End AlignmentClaims.

Example run_sample_alignment :
  run sample_reconstruct sample_update sample_converged true () 5 2
  = Return {| shapes := [4; 7; 10]; n_iters := 2;
              stopped_by := ReachedMaxIters |}.
Proof. reflexivity. Qed.


(** ** Claims about the active components *)

Lemma components_reaching_bound target acc evs :
  (components_reaching target acc evs ≤ length evs)%nat.
Proof.
  revert acc. induction evs as [|e rest IH]; intros acc; simpl; [lia|].
  destruct (Qle_bool target acc); [lia|]. specialize (IH (acc + e)%Q). lia.
Qed.

(** What one setting leaves in the model. *)
Lemma set_active_returns m c m' :
  set_active m c = Return m' →
  eigenvalues m' = eigenvalues m
  ∧ n_global_parameters m' = n_global_parameters m
  ∧ (n_active_components m' ≤ n_components m')%nat
  ∧ (c = None → n_active_components m' = n_components m)
  ∧ (∀ k, c = Some (AsInt k) →
       Z.of_nat (n_active_components m') = k
       ∧ 0 ≤ k ≤ Z.of_nat (n_components m))
  ∧ (∀ p, c = Some (AsFloat p) →
       n_active_components m'
       = components_reaching (p * total_variance (eigenvalues m))%Q 0%Q
           (eigenvalues m)).
Proof.
  unfold set_active, n_components.
  destruct c as [[k|p]|].
  - case_bool_decide as Hk; [|discriminate]. intros [= <-]. simpl.
    split_and!; try done.
    + lia.
    + intros k' [= <-]. lia.
  - intros [= <-]. simpl. split_and!; try done.
    + apply components_reaching_bound.
    + intros p' [= <-]. reflexivity.
  - intros [= <-]. simpl. split_and!; done.
Qed.

Lemma set_active_raises m c e :
  set_active m c = Raise e →
  e = ConfigurationError
  ∧ ∃ k, c = Some (AsInt k) ∧ ¬ (0 ≤ k ≤ Z.of_nat (n_components m)).
Proof.
  unfold set_active. destruct c as [[k|p]|]; try discriminate.
  case_bool_decide as Hk; [discriminate|]. intros [= <-]. eauto.
Qed.

Section SetEach.
Implicit Types (models : list loc) (cs : list (option component_spec)).
Implicit Types (h : gmap loc ShapeModel).

Lemma set_active_at_run l c h :
  set_active_at l c h =
  match h !! l with
  | None => (Raise (Exn "ReferenceError"), h)
  | Some m =>
      match set_active m c with
      | Return m' => (Return (), <[l := m']> h)
      | Raise e => (Raise e, h)
      end
  end.
Proof. reflexivity. Qed.

(** Models that are not in the list are left as they were. *)
Lemma set_active_each_frame models cs h o h' l :
  set_active_each models cs h = (o, h') → l ∉ models → h' !! l = h !! l.
Proof.
  revert cs h. induction models as [|l0 rest IH]; intros cs h; simpl.
  - intros [= _ <-]. done.
  - destruct cs as [|c cs']; [intros [= _ <-]; done|].
    rewrite bind_run, set_active_at_run. intros Hrun Hl.
    apply not_elem_of_cons in Hl as [Hne Hrest].
    destruct (h !! l0) as [m0|]; [|by injection Hrun as _ <-].
    destruct (set_active m0 c) as [m0'|e]; [|by injection Hrun as _ <-].
    rewrite (IH _ _ Hrun Hrest). by apply lookup_insert_ne.
Qed.

(** When every setting is accepted, each model holds what its own
    setting leaves. *)
Lemma set_active_each_returns models cs h h' :
  NoDup models → length cs = length models →
  set_active_each models cs h = (Return (), h') →
  ∀ i l c, models !! i = Some l → cs !! i = Some c →
    ∃ m m', h !! l = Some m ∧ set_active m c = Return m'
            ∧ h' !! l = Some m'.
Proof.
  revert cs h. induction models as [|l0 rest IH]; intros cs h Hnd Hlen;
    [by intros _ i l c Hi|].
  destruct cs as [|c0 cs']; [discriminate|]. simpl.
  rewrite bind_run, set_active_at_run.
  apply NoDup_cons in Hnd as [Hl0 Hnd]. injection Hlen as Hlen.
  destruct (h !! l0) as [m0|] eqn:Hm0; [|discriminate].
  destruct (set_active m0 c0) as [m0'|e] eqn:Hset; [|discriminate].
  intros Hrun [|i] l c Hi Hc; simpl in Hi, Hc.
  - injection Hi as <-. injection Hc as <-. exists m0, m0'.
    split; [done|]. split; [done|].
    rewrite (set_active_each_frame _ _ _ _ _ l0 Hrun Hl0).
    apply lookup_insert_eq.
  - destruct (IH cs' _ Hnd Hlen Hrun i l c Hi Hc) as (m & m' & Hm & Hs & Hm').
    exists m, m'. split; [|done].
    rewrite lookup_insert_ne in Hm; [done|].
    intros <-. apply Hl0. eapply list_elem_of_lookup_2, Hi.
Qed.

(** With every reference alive, the only exception is the refusal of a
    setting. *)
Lemma set_active_each_raises models cs h e h' :
  (∀ l, l ∈ models → is_Some (h !! l)) →
  set_active_each models cs h = (Raise e, h') → e = ConfigurationError.
Proof.
  revert cs h. induction models as [|l0 rest IH]; intros cs h Halive; simpl;
    [discriminate|].
  destruct cs as [|c0 cs']; [discriminate|].
  rewrite bind_run, set_active_at_run.
  destruct (Halive l0) as [m0 ->]; [by left|].
  destruct (set_active m0 c0) as [m0'|e0] eqn:Hset.
  - apply IH. intros l Hl. destruct (decide (l = l0)) as [->|Hne].
    + rewrite lookup_insert_eq. eauto.
    + rewrite lookup_insert_ne by done. apply Halive. by right.
  - intros [= <- _]. by apply set_active_raises in Hset as [-> _].
Qed.

(** When every setting is acceptable, the call returns. *)
Lemma set_active_each_total models cs h :
  NoDup models → length cs = length models →
  (∀ i l c, models !! i = Some l → cs !! i = Some c →
     ∃ m m', h !! l = Some m ∧ set_active m c = Return m') →
  ∃ h', set_active_each models cs h = (Return (), h').
Proof.
  revert cs h. induction models as [|l0 rest IH]; intros cs h Hnd Hlen Hok;
    [by eexists|].
  destruct cs as [|c0 cs']; [discriminate|]. simpl.
  rewrite bind_run, set_active_at_run.
  apply NoDup_cons in Hnd as [Hl0 Hnd]. injection Hlen as Hlen.
  destruct (Hok 0%nat l0 c0 eq_refl eq_refl) as (m0 & m0' & -> & ->).
  apply IH; [done..|]. intros i l c Hi Hc.
  destruct (Hok (S i) l c Hi Hc) as (m & m' & Hm & Hs).
  exists m, m'. split; [|done]. rewrite lookup_insert_ne; [done|].
  intros <-. apply Hl0. eapply list_elem_of_lookup_2, Hi.
Qed.
End SetEach.

Section SetModelsComponents.
Implicit Types (models : list loc) (h : gmap loc ShapeModel).

Lemma set_uniform_returns models c h h' :
  NoDup models →
  set_active_each models (replicate (length models) c) h = (Return (), h') →
  ∀ l, l ∈ models →
    ∃ m m', h !! l = Some m ∧ set_active m c = Return m' ∧ h' !! l = Some m'.
Proof.
  intros Hnd Hrun l Hl. apply list_elem_of_lookup_1 in Hl as [i Hi].
  eapply (set_active_each_returns models _ h h' Hnd); [|done|done|].
  - apply length_replicate.
  - apply lookup_replicate_2. eapply lookup_lt_Some, Hi.
Qed.

Lemma set_uniform_total models c h :
  NoDup models →
  (∀ l, l ∈ models → ∃ m m', h !! l = Some m ∧ set_active m c = Return m') →
  ∃ h', set_active_each models (replicate (length models) c) h
        = (Return (), h').
Proof.
  intros Hnd Hok. apply set_active_each_total; [done|apply length_replicate|].
  intros i l c' Hi Hc. apply lookup_replicate_1 in Hc as [-> _].
  apply Hok. eapply list_elem_of_lookup_2, Hi.
Qed.

(** Whatever the form of [n_shape], a call that returns has given every
    model of the list the result of one accepted setting. *)
Lemma set_models_components_returns models n_shape h h' :
  NoDup models →
  set_models_components models n_shape h = (Return (), h') →
  ∀ l, l ∈ models →
    ∃ m m' c, h !! l = Some m ∧ set_active m c = Return m'
              ∧ h' !! l = Some m'.
Proof.
  intros Hnd Hrun l Hl. destruct n_shape as [|c|cs]; simpl in Hrun.
  - destruct (set_uniform_returns _ _ _ _ Hnd Hrun l Hl) as (m & m' & ?).
    by exists m, m', None.
  - destruct (set_uniform_returns _ _ _ _ Hnd Hrun l Hl) as (m & m' & ?).
    by exists m, m', (Some c).
  - case_bool_decide as Hlen; [|discriminate].
    apply list_elem_of_lookup_1 in Hl as [i Hi].
    destruct (lookup_lt_is_Some_2 cs i) as [c Hc].
    { rewrite Hlen. eapply lookup_lt_Some, Hi. }
    destruct (set_active_each_returns models (Some <$> cs) h h' Hnd)
      with (i := i) (l := l) (c := Some c) as (m & m' & ?);
      [by rewrite length_fmap|done|done|by rewrite list_lookup_fmap, Hc|].
    by exists m, m', (Some c).
Qed.

(** C7.  For shape models that are distinct objects: ``None`` makes
    every retained component active; an [int] within the retained count
    becomes the active count of every model; an [int] above the count
    some model retained is refused with [ConfigurationError]; a [float]
    makes active the leading components that reach that fraction of the
    variance; a list sets the model of each scale from its own entry and
    is refused when it has not one entry per scale; and after any call
    that returns, no model has more active than retained components. *)
Theorem active_components_set_and_bounded models h :
  NoDup models → (∀ l, l ∈ models → is_Some (h !! l)) →
  (∃ h', set_models_components models NoneArg h = (Return (), h')
     ∧ ∀ l m, l ∈ models → h !! l = Some m →
         ∃ m', h' !! l = Some m'
               ∧ n_active_components m' = n_components m'
               ∧ n_components m' = n_components m)
  ∧ (∀ k,
       (∀ l m, l ∈ models → h !! l = Some m →
          0 ≤ k ≤ Z.of_nat (n_components m)) →
       ∃ h', set_models_components models (Single (AsInt k)) h
             = (Return (), h')
         ∧ ∀ l, l ∈ models →
             ∃ m', h' !! l = Some m' ∧ Z.of_nat (n_active_components m') = k)
  ∧ (∀ k l m, l ∈ models → h !! l = Some m → Z.of_nat (n_components m) < k →
       ∃ h', set_models_components models (Single (AsInt k)) h
             = (Raise ConfigurationError, h'))
  ∧ (∀ p,
       ∃ h', set_models_components models (Single (AsFloat p)) h
             = (Return (), h')
         ∧ ∀ l m, l ∈ models → h !! l = Some m →
             ∃ m', h' !! l = Some m'
               ∧ n_active_components m'
                 = components_reaching
                     (p * total_variance (eigenvalues m))%Q 0%Q
                     (eigenvalues m))
  ∧ (∀ cs h',
       set_models_components models (PerScale cs) h = (Return (), h') →
       length cs = length models
       ∧ ∀ i l c, models !! i = Some l → cs !! i = Some c →
           ∃ m m', h !! l = Some m ∧ set_active m (Some c) = Return m'
                   ∧ h' !! l = Some m')
  ∧ (∀ cs, length cs ≠ length models →
       set_models_components models (PerScale cs) h
       = (Raise ConfigurationError, h))
  ∧ (∀ n_shape h',
       set_models_components models n_shape h = (Return (), h') →
       ∀ l, l ∈ models →
         ∃ m m', h !! l = Some m ∧ h' !! l = Some m'
                 ∧ n_components m' = n_components m
                 ∧ (n_active_components m' ≤ n_components m')%nat).
Proof.
  intros Hnd Halive. split_and!.
  - destruct (set_uniform_total models None h Hnd) as [h' Hrun].
    { intros l Hl. destruct (Halive l Hl) as [m Hm]. exists m.
      eexists. split; [done|]. reflexivity. }
    exists h'. split; [exact Hrun|]. intros l m Hl Hm.
    destruct (set_uniform_returns _ _ _ _ Hnd Hrun l Hl)
      as (m0 & m' & Hm0 & Hset & Hm').
    rewrite Hm in Hm0. injection Hm0 as <-. exists m'. split; [done|].
    apply set_active_returns in Hset as (Hev & _ & _ & Hnone & _).
    unfold n_components in *. rewrite Hev. split; [by apply Hnone|done].
  - intros k Hk.
    destruct (set_uniform_total models (Some (AsInt k)) h Hnd) as [h' Hrun].
    { intros l Hl. destruct (Halive l Hl) as [m Hm]. exists m.
      eexists. split; [done|]. simpl.
      rewrite bool_decide_eq_true_2; [done|]. by eapply Hk. }
    exists h'. split; [exact Hrun|]. intros l Hl.
    destruct (set_uniform_returns _ _ _ _ Hnd Hrun l Hl)
      as (m0 & m' & Hm0 & Hset & Hm').
    exists m'. split; [done|].
    apply set_active_returns in Hset as (_ & _ & _ & _ & Hint & _).
    by apply (Hint k).
  - intros k l m Hl Hm Hk. simpl.
    destruct (set_active_each models
                (replicate (length models) (Some (AsInt k))) h)
      as [[[]|e] h'] eqn:Hrun.
    + destruct (set_uniform_returns _ _ _ _ Hnd Hrun l Hl)
        as (m0 & m' & Hm0 & Hset & _).
      rewrite Hm in Hm0. injection Hm0 as <-.
      apply set_active_returns in Hset as (_ & _ & _ & _ & Hint & _).
      destruct (Hint k eq_refl) as [_ ?]. lia.
    + exists h'. by rewrite (set_active_each_raises _ _ _ _ _ Halive Hrun).
  - intros p.
    destruct (set_uniform_total models (Some (AsFloat p)) h Hnd)
      as [h' Hrun].
    { intros l Hl. destruct (Halive l Hl) as [m Hm]. exists m.
      eexists. split; [done|]. reflexivity. }
    exists h'. split; [exact Hrun|]. intros l m Hl Hm.
    destruct (set_uniform_returns _ _ _ _ Hnd Hrun l Hl)
      as (m0 & m' & Hm0 & Hset & Hm').
    rewrite Hm in Hm0. injection Hm0 as <-. exists m'. split; [done|].
    apply set_active_returns in Hset as (_ & _ & _ & _ & _ & Hfloat).
    by apply Hfloat.
  - intros cs h'. unfold set_models_components.
    case_bool_decide as Hlen; [|discriminate].
    intros Hrun. split; [done|]. intros i l c Hi Hc.
    eapply (set_active_each_returns models (Some <$> cs) h h' Hnd);
      [by rewrite length_fmap|done|done|by rewrite list_lookup_fmap, Hc].
  - intros cs Hlen. simpl. by rewrite bool_decide_eq_false_2.
  - intros n_shape h' Hrun l Hl.
    destruct (set_models_components_returns _ _ _ _ Hnd Hrun l Hl)
      as (m & m' & c & Hm & Hset & Hm').
    exists m, m'. split; [done|]. split; [done|].
    apply set_active_returns in Hset as (Hev & _ & Hbound & _).
    unfold n_components in *. split; [by rewrite Hev|exact Hbound].
Qed.
End SetModelsComponents.

Example set_two_components :
  set_models_components [10; 11]%positive (Single (AsInt 2)) sample_models
  = (Return (),
     <[10%positive := with_active sample_model_1 2]>
       (<[11%positive := with_active sample_model_2 2]> ∅)).
Proof. reflexivity. Qed.

Example set_three_components :
  (set_models_components [10; 11]%positive (Single (AsInt 3))
     sample_models).1
  = Raise ConfigurationError.
Proof. reflexivity. Qed.

Example set_per_scale :
  (λ h, n_active_components <$> h !! 10%positive)
    (set_models_components [10; 11]%positive
       (PerScale [AsFloat (9 # 10); AsInt 1]) sample_models).2
  = Some 2%nat.
Proof. reflexivity. Qed.

Lemma active_components_set_and_bounded_witness :
  NoDup [10; 11]%positive
  ∧ (∀ l, l ∈ [10; 11]%positive → is_Some (sample_models !! l))
  ∧ ∃ h', set_models_components [10; 11]%positive NoneArg sample_models
          = (Return (), h')
      ∧ ∀ l m, l ∈ [10; 11]%positive → sample_models !! l = Some m →
          ∃ m', h' !! l = Some m'
                ∧ n_active_components m' = n_components m'
                ∧ n_components m' = n_components m.
Proof.
  assert (NoDup [10; 11]%positive) as Hnd.
  { apply (bool_decide_unpack _). reflexivity. }
  assert (∀ l, l ∈ [10; 11]%positive → is_Some (sample_models !! l)) as Halive.
  { intros l Hl.
    repeat (apply elem_of_cons in Hl as [->|Hl]; [by eexists|]).
    by apply elem_of_nil in Hl. }
  split; [exact Hnd|]. split; [exact Halive|].
  apply (proj1 (active_components_set_and_bounded [10; 11]%positive
                  sample_models Hnd Halive)).
Defined.

(** ** Claims about the fitter *)

Section FitterClaims.
Context {Shape Features Ensemble Algorithm Base : Type}.
Context (checks_set_models_components :
           list loc → n_shape_arg → M (gmap loc ShapeModel) unit).
Context (MultiScaleParametricFitter_init :
           list Q → Shape → Features → list Algorithm → Base).
Context (RegularisedLandmarkMeanShift : algorithm_cls Ensemble Algorithm).
Implicit Types (σ : store Shape Features Ensemble).
Implicit Types (c : CLM Shape Features Ensemble).
Implicit Types (cls : algorithm_cls Ensemble Algorithm).

Lemma deref_alive clm c σ :
  clm_objects σ !! clm = Some c → deref clm σ = (Return c, σ).
Proof. intros Hc. unfold deref. by rewrite Hc. Qed.

(** Building the algorithms writes nothing, and gives one algorithm per
    index, made from the ensemble and the shape model at that index. *)
Lemma build_algorithms_total cls clm c σ indices :
  clm_objects σ !! clm = Some c →
  (∀ i, i ∈ indices →
     (i < length (expert_ensembles c))%nat
     ∧ (i < length (shape_models c))%nat) →
  ∃ algorithms,
    build_algorithms cls clm indices σ = (Return algorithms, σ)
    ∧ length algorithms = length indices
    ∧ ∀ j i, indices !! j = Some i →
        ∃ e m, expert_ensembles c !! i = Some e
               ∧ shape_models c !! i = Some m
               ∧ algorithms !! j = Some (cls e m (shape_model_objects σ)).
Proof.
  intros Hc. induction indices as [|i rest IH]; intros Hin.
  - exists []. split; [done|]. split; [done|]. by intros j i Hj.
  - destruct IH as (others & Hrun & Hlen & Hothers).
    { intros i' Hi'. apply Hin. by right. }
    destruct (Hin i) as [Hie Him]; [by left|].
    apply lookup_lt_is_Some_2 in Hie as [e He].
    apply lookup_lt_is_Some_2 in Him as [m Hm].
    exists (cls e m (shape_model_objects σ) :: others).
    split; [|split].
    + simpl. rewrite (bind_returns _ _ _ _ _ (deref_alive clm c σ Hc)).
      unfold getitem. rewrite He, Hm.
      do 3 (rewrite bind_run; simpl). rewrite bind_run, Hrun. done.
    + simpl. by rewrite Hlen.
    + intros [|j] i' Hj; simpl in Hj.
      * injection Hj as <-. by exists e, m.
      * by apply Hothers.
Qed.

(** C10.  Constructing the fitter applies the setting derived from
    [n_shape] to the shape-model objects the model refers to, in the
    store, before any algorithm is built; nothing else is written.  One
    algorithm is built per scale, from the expert ensemble and the shape
    model of that scale as the setting left it, and the [clm] property
    of the fitter is the reference that was passed in, behind which lie
    the shape models with their new setting.  When the setting is
    refused, the exception leaves the constructor and what was already
    set stays set. *)
Theorem fitter_construction_sets_model_in_place
    model gd_algorithm_cls n_shape σ c :
  clm_objects σ !! model = Some c →
  (n_scales c ≤ length (expert_ensembles c))%nat →
  (n_scales c ≤ length (shape_models c))%nat →
  let cls := default RegularisedLandmarkMeanShift gd_algorithm_cls in
  let construct_fitter :=
    GradientDescentCLMFitter_init checks_set_models_components
      MultiScaleParametricFitter_init RegularisedLandmarkMeanShift
      model gd_algorithm_cls n_shape in
  (∀ h',
     checks_set_models_components (shape_models c) n_shape
       (shape_model_objects σ) = (Return (), h') →
     ∃ fitter algorithms,
       construct_fitter σ
       = (Return fitter,
          {| clm_objects := clm_objects σ; shape_model_objects := h' |})
       ∧ clm fitter = model
       ∧ base fitter
         = MultiScaleParametricFitter_init (scales c) (reference_shape c)
             (holistic_features c) algorithms
       ∧ length algorithms = n_scales c
       ∧ ∀ i, (i < n_scales c)%nat →
           ∃ e m, expert_ensembles c !! i = Some e
                  ∧ shape_models c !! i = Some m
                  ∧ algorithms !! i = Some (cls e m h'))
  ∧ (∀ e h',
       checks_set_models_components (shape_models c) n_shape
         (shape_model_objects σ) = (Raise e, h') →
       construct_fitter σ
       = (Raise e,
          {| clm_objects := clm_objects σ; shape_model_objects := h' |})).
Proof.
  intros Hc Hens Hsms cls construct_fitter. subst construct_fitter.
  unfold GradientDescentCLMFitter_init. split.
  - intros h' Hset.
    set (σ1 := {| clm_objects := clm_objects σ;
                  shape_model_objects := h' |}).
    assert (clm_objects σ1 !! model = Some c) as Hc1 by exact Hc.
    destruct (build_algorithms_total cls model c σ1 (seq 0 (n_scales c)) Hc1)
      as (algorithms & Hbuild & Hlen & Halgs).
    { intros i Hi. apply elem_of_seq in Hi. lia. }
    exists {| _model := model;
              base := MultiScaleParametricFitter_init (scales c)
                        (reference_shape c) (holistic_features c)
                        algorithms |}, algorithms.
    split; [|split; [done|split; [done|split]]].
    + rewrite (bind_returns _ _ _ _ _ (deref_alive model c σ Hc)).
      rewrite bind_run. unfold on_shape_models at 1. rewrite Hset.
      fold σ1. rewrite (bind_returns _ _ _ _ _ (deref_alive model c σ1 Hc1)).
      fold cls. rewrite (bind_returns _ _ _ _ _ Hbuild).
      unfold CLMFitter_init.
      rewrite (bind_returns _ _ _ _ _ (deref_alive model c σ1 Hc1)).
      reflexivity.
    + by rewrite Hlen, length_seq.
    + intros i Hi. apply (Halgs i i). by apply lookup_seq_lt.
  - intros e h' Hset.
    rewrite (bind_returns _ _ _ _ _ (deref_alive model c σ Hc)).
    rewrite bind_run. unfold on_shape_models at 1. by rewrite Hset.
Qed.
End FitterClaims.

(** The sample model asked for two active components: the algorithms are
    built on shape models that already have them, the first of which had
    one before. *)
Example construct_sample_fitter :
  GradientDescentCLMFitter_init set_models_components sample_base_init
    sample_algorithm_cls 1%positive None (Single (AsInt 2)) sample_store
  = (Return {| _model := 1%positive;
               base := ([1 # 2; 1 # 1]%Q,
                        [("coarse experts", Some 2%nat);
                         ("fine experts", Some 2%nat)]) |},
     {| clm_objects := clm_objects sample_store;
        shape_model_objects :=
          (set_models_components [10; 11]%positive (Single (AsInt 2))
             sample_models).2 |}).
Proof. reflexivity. Qed.

Lemma fitter_construction_sets_model_in_place_witness :
  clm_objects sample_store !! 1%positive = Some sample_clm
  ∧ (n_scales sample_clm ≤ length (expert_ensembles sample_clm))%nat
  ∧ (n_scales sample_clm ≤ length (shape_models sample_clm))%nat
  ∧ set_models_components (shape_models sample_clm) (Single (AsInt 2))
      (shape_model_objects sample_store)
    = (Return (),
       (set_models_components [10; 11]%positive (Single (AsInt 2))
          sample_models).2)
  ∧ ∃ fitter algorithms,
      GradientDescentCLMFitter_init set_models_components sample_base_init
        sample_algorithm_cls 1%positive None (Single (AsInt 2)) sample_store
      = (Return fitter,
         {| clm_objects := clm_objects sample_store;
            shape_model_objects :=
              (set_models_components [10; 11]%positive (Single (AsInt 2))
                 sample_models).2 |})
      ∧ clm fitter = 1%positive
      ∧ base fitter
        = sample_base_init (scales sample_clm) (reference_shape sample_clm)
            (holistic_features sample_clm) algorithms
      ∧ length algorithms = n_scales sample_clm
      ∧ ∀ i, (i < n_scales sample_clm)%nat →
          ∃ e m, expert_ensembles sample_clm !! i = Some e
                 ∧ shape_models sample_clm !! i = Some m
                 ∧ algorithms !! i
                   = Some (sample_algorithm_cls e m
                             (set_models_components [10; 11]%positive
                                (Single (AsInt 2)) sample_models).2).
Proof.
  split; [reflexivity|]. split; [simpl; lia|]. split; [simpl; lia|].
  split; [reflexivity|].
  apply (proj1 (fitter_construction_sets_model_in_place set_models_components
                  sample_base_init sample_algorithm_cls 1%positive None
                  (Single (AsInt 2)) sample_store sample_clm eq_refl
                  (le_n 2) (le_n 2))).
  reflexivity.
Defined.

(** ** Further properties of the wrapper *)

Section NormalisationFacts.
Context {elt : Type}.
Implicit Types (L : list (ndarray elt)) (ds : list (list elt)).

Lemma chunks_concat size ds :
  Forall (λ d, length d = size) ds →
  chunks (length ds) size (concat ds) = ds.
Proof.
  induction 1 as [|d ds Hd _ IH]; [reflexivity|]. simpl.
  rewrite take_app_length', drop_app_length' by done. by rewrite IH.
Qed.

Lemma concat_length size ds :
  Forall (λ d, length d = size) ds →
  length (concat ds) = (length ds * size)%nat.
Proof.
  induction 1 as [|d ds Hd _ IH]; [reflexivity|]. simpl.
  rewrite length_app, IH, Hd. reflexivity.
Qed.

(** The members of a list of well-formed arrays of shape [s]. *)
Lemma members_of_shape s L :
  forallb (has_shape s) L = true → forallb well_formed L = true →
  Dense s <$> (flat <$> L) = L
  ∧ Forall (λ d, length d = size_of s) (flat <$> L).
Proof.
  induction L as [|a rest IH]; [by split; [|constructor]|]. simpl forallb.
  rewrite !andb_true_iff. intros [Ha Hrest] [Hwa Hwrest].
  destruct (IH Hrest Hwrest) as [IH1 IH2].
  apply has_shape_spec in Ha as [d ->]. simpl in Hwa.
  apply bool_decide_eq_true in Hwa. rewrite !fmap_cons. split.
  - by rewrite IH1.
  - constructor; done.
Qed.

Section WithState.
Context {W : Type} `{NumpyRagged elt}.

(** X1.  A list of well-formed arrays of one shape is normalised to a
    well-formed array with one more, leading axis, as long as the list;
    reading that array back along its first axis gives the list again,
    every image in its place.  An empty list becomes the empty array of
    shape (0,); no state is touched. *)
Theorem list_survives_normalisation L (w : W) :
  rectangular L = true → forallb well_formed L = true →
  ∃ a, as_ndarray (PyList L) w = (Return a, w)
       ∧ well_formed a = true
       ∧ (∀ x, x ∈ L → shape a = length L :: shape x)
       ∧ (L = [] → a = Dense [0%nat] [])
       ∧ unstack a = L.
Proof.
  intros Hrect Hwf. exists (stack L).
  split; [by apply as_ndarray_rectangular|].
  destruct L as [|[s d|items] rest]; [| |discriminate].
  { split; [reflexivity|]. split; [by intros x Hx%elem_of_nil|].
    split; reflexivity. }
  assert (forallb (has_shape s) (Dense s d :: rest) = true) as Hs.
  { simpl. rewrite andb_true_iff. split; [by apply bool_decide_eq_true|].
    exact Hrect. }
  destruct (members_of_shape s _ Hs Hwf) as [Hmembers Hlen].
  split; [|split; [|split; [discriminate|]]].
  - unfold stack. apply bool_decide_eq_true.
    rewrite (concat_length _ _ Hlen), length_fmap. reflexivity.
  - intros x Hx. rewrite forallb_forall in Hs.
    apply list_elem_of_In, Hs, has_shape_spec in Hx as [d' ->]. reflexivity.
  - unfold stack, unstack. cbn [shape].
    rewrite <- (length_fmap flat (Dense s d :: rest)).
    rewrite (chunks_concat _ _ Hlen). exact Hmembers.
Qed.
End WithState.
End NormalisationFacts.

Lemma list_survives_normalisation_witness :
  rectangular sample_list = true
  ∧ forallb well_formed sample_list = true
  ∧ ∃ a, @as_ndarray Z nat strict_numpy (PyList sample_list) 0%nat
         = (Return a, 0%nat)
       ∧ well_formed a = true
       ∧ (∀ x, x ∈ sample_list → shape a = length sample_list :: shape x)
       ∧ (sample_list = [] → a = Dense [0%nat] [])
       ∧ unstack a = sample_list.
Proof.
  split; [reflexivity|]. split; [reflexivity|].
  apply (list_survives_normalisation (H:=strict_numpy) sample_list 0%nat);
    reflexivity.
Defined.

Section ColdThenWarm.
Context {elt W : Type} `{NumpyRagged elt}.
Implicit Types (self : IncrementalCorrelationFilterThinWrapper elt W).

(** X2.  With callables that keep the shapes the docstrings list, the
    auto- and cross-correlation arrays that [train] returns are arrays
    that [increment] takes: [train] on one batch followed by [increment]
    on another batch of the same geometry, with any count, returns, and
    returns a filter and statistics of the same shapes again. *)
Theorem increment_accepts_what_train_returns
    self g (X X' : patches elt) t n_x w :
  cf_contract (cf_callable self) → icf_contract (icf_callable self) →
  wf_geometry g = true → is_batch g X = true → is_batch g X' = true →
  is_response g t = true →
  ∃ r w1 r' w2,
    train self X t w = (Return r, w1)
    ∧ increment self (auto_correlation r) (cross_correlation r) n_x X' t w1
      = (Return r', w2)
    ∧ shape (correlation_filter r') = shape (correlation_filter r)
    ∧ shape (auto_correlation r') = shape (auto_correlation r)
    ∧ shape (cross_correlation r') = shape (cross_correlation r)
    ∧ is_statistics g (auto_correlation r') (cross_correlation r') = true.
Proof.
  intros Hcf Hicf Hg HX HX' Ht.
  destruct (train_returns self g X t w Hcf Hg HX Ht) as (r & w1 & Hr & Hok).
  apply is_output_spec in Hok as (Hf & HA & HB & Hs).
  destruct (increment_returns self g (auto_correlation r)
              (cross_correlation r) n_x X' t w1 Hicf Hg Hs HX' Ht)
    as (r' & w2 & Hr' & Hok').
  apply is_output_spec in Hok' as (Hf' & HA' & HB' & Hs').
  exists r, w1, r', w2. split; [done|]. split; [done|].
  split; [by rewrite Hf, Hf'|].
  split; [|split; [|done]].
  - apply (inj (fmap Z.of_nat)). by rewrite HA, HA'.
  - apply (inj (fmap Z.of_nat)). by rewrite HB, HB'.
Qed.
End ColdThenWarm.

Lemma increment_accepts_what_train_returns_witness :
  cf_contract zeros_cf ∧ icf_contract zeros_icf
  ∧ wf_geometry sample_geometry = true
  ∧ is_batch sample_geometry sample_batch_1 = true
  ∧ is_batch sample_geometry sample_batch_2 = true
  ∧ is_response sample_geometry sample_response = true
  ∧ ∃ r w1 r' w2,
      @train Z nat strict_numpy zeros_wrapper sample_batch_1 sample_response
        0%nat = (Return r, w1)
      ∧ @increment Z nat strict_numpy zeros_wrapper (auto_correlation r)
          (cross_correlation r) 2 sample_batch_2 sample_response w1
        = (Return r', w2)
      ∧ shape (correlation_filter r') = shape (correlation_filter r)
      ∧ shape (auto_correlation r') = shape (auto_correlation r)
      ∧ shape (cross_correlation r') = shape (cross_correlation r)
      ∧ is_statistics sample_geometry (auto_correlation r')
          (cross_correlation r') = true.
Proof.
  split; [exact zeros_cf_contract|]. split; [exact zeros_icf_contract|].
  do 4 (split; [reflexivity|]).
  apply (increment_accepts_what_train_returns (H:=strict_numpy) zeros_wrapper
           sample_geometry sample_batch_1 sample_batch_2 sample_response 2
           0%nat zeros_cf_contract zeros_icf_contract
           eq_refl eq_refl eq_refl eq_refl).
Defined.

(** ** Further properties of the fitter *)

Section ConstructionFacts.
Context {Shape Features Ensemble Algorithm Base : Type}.
Context (checks_set_models_components :
           list loc → n_shape_arg → M (gmap loc ShapeModel) unit).
Context (MultiScaleParametricFitter_init :
           list Q → Shape → Features → list Algorithm → Base).
Context (RegularisedLandmarkMeanShift : algorithm_cls Ensemble Algorithm).
Implicit Types (σ : store Shape Features Ensemble).
Implicit Types (c : CLM Shape Features Ensemble).
Implicit Types (cls : algorithm_cls Ensemble Algorithm).

Lemma getitem_run {R} (l : list R) i σ :
  getitem l i σ
  = match l !! i with
    | Some x => (Return x, σ)
    | None => (Raise IndexError, σ)
    end.
Proof. unfold getitem. by destruct (l !! i). Qed.

(** The list comprehension on its own: it writes nothing, it raises
    [IndexError] as soon as an index has no ensemble or no shape model,
    and otherwise returns one algorithm per index. *)
Lemma build_algorithms_run cls model c σ indices :
  clm_objects σ !! model = Some c →
  build_algorithms cls model indices σ
  = (if forallb (λ i, bool_decide (i < length (expert_ensembles c))%nat
                      && bool_decide (i < length (shape_models c))%nat)
          indices
     then Return (omap (λ i, e ← expert_ensembles c !! i;
                             m ← shape_models c !! i;
                             Some (cls e m (shape_model_objects σ)))
                       indices)
     else Raise IndexError, σ).
Proof.
  intros Hc. induction indices as [|i rest IH]; [reflexivity|].
  cbn [build_algorithms forallb omap list_omap].
  rewrite (bind_returns _ _ _ _ _ (deref_alive model c σ Hc)).
  rewrite bind_run, getitem_run.
  destruct (expert_ensembles c !! i) as [e|] eqn:He.
  - rewrite bind_run, getitem_run.
    destruct (shape_models c !! i) as [m|] eqn:Hm.
    + rewrite !bool_decide_eq_true_2 by (eapply lookup_lt_Some; eassumption).
      rewrite bind_run. unfold construct at 1. rewrite bind_run, IH.
      cbn [andb mbind option_bind].
      by destruct (forallb _ rest).
    + apply lookup_ge_None in Hm.
      rewrite (bool_decide_eq_false_2 (i < length (shape_models c))%nat)
        by lia.
      by rewrite andb_false_r.
  - apply lookup_ge_None in He.
    rewrite (bool_decide_eq_false_2 (i < length (expert_ensembles c))%nat)
      by lia.
    reflexivity.
Qed.

(** The constructor, step by step. *)
Lemma construct_run model gd_algorithm_cls n_shape σ c :
  clm_objects σ !! model = Some c →
  GradientDescentCLMFitter_init checks_set_models_components
    MultiScaleParametricFitter_init RegularisedLandmarkMeanShift
    model gd_algorithm_cls n_shape σ
  = let '(o, h') :=
      checks_set_models_components (shape_models c) n_shape
        (shape_model_objects σ) in
    let σ1 := {| clm_objects := clm_objects σ; shape_model_objects := h' |} in
    (match o with
     | Raise e => Raise e
     | Return _ =>
         match
           (build_algorithms
              (default RegularisedLandmarkMeanShift gd_algorithm_cls)
              model (seq 0 (n_scales c)) σ1).1
         with
         | Raise e => Raise e
         | Return algorithms =>
             Return {| _model := model;
                       base := MultiScaleParametricFitter_init (scales c)
                                 (reference_shape c) (holistic_features c)
                                 algorithms |}
         end
     end, σ1).
Proof.
  intros Hc. unfold GradientDescentCLMFitter_init.
  rewrite (bind_returns _ _ _ _ _ (deref_alive model c σ Hc)).
  rewrite bind_run. unfold on_shape_models at 1.
  destruct (checks_set_models_components (shape_models c) n_shape
              (shape_model_objects σ)) as [[[]|e] h']; [|reflexivity].
  set (σ1 := {| clm_objects := clm_objects σ; shape_model_objects := h' |}).
  assert (clm_objects σ1 !! model = Some c) as Hc1 by exact Hc.
  rewrite (bind_returns _ _ _ _ _ (deref_alive model c σ1 Hc1)).
  rewrite bind_run. rewrite !(build_algorithms_run _ model c σ1 _ Hc1).
  destruct (forallb _ (seq 0 (n_scales c))); [|reflexivity].
  unfold CLMFitter_init.
  rewrite (bind_returns _ _ _ _ _ (deref_alive model c σ1 Hc1)).
  reflexivity.
Qed.

(** The store the constructor leaves behind, however it ends. *)
Lemma construct_store model gd_algorithm_cls n_shape σ c o σ' :
  clm_objects σ !! model = Some c →
  GradientDescentCLMFitter_init checks_set_models_components
    MultiScaleParametricFitter_init RegularisedLandmarkMeanShift
    model gd_algorithm_cls n_shape σ = (o, σ') →
  σ' = {| clm_objects := clm_objects σ;
          shape_model_objects :=
            (checks_set_models_components (shape_models c) n_shape
               (shape_model_objects σ)).2 |}
  ∧ (∀ fitter, o = Return fitter → _model fitter = model).
Proof.
  intros Hc. rewrite (construct_run _ _ _ _ c Hc).
  destruct (checks_set_models_components (shape_models c) n_shape
              (shape_model_objects σ)) as [[[]|e] h'].
  - cbv zeta.
    destruct (build_algorithms _ model (seq 0 (n_scales c)) _).1;
      intros [= <- <-]; split; try done.
    by intros fitter [= <-].
  - intros [= <- <-]. split; done.
Qed.

(** X3.  When the model claims more scales than it has expert ensembles
    or shape models, the constructor raises [IndexError] and returns no
    fitter, but only after the active components were set: the shape
    models keep the new setting. *)
Theorem construction_index_error_after_setting
    model gd_algorithm_cls n_shape σ c h' :
  clm_objects σ !! model = Some c →
  checks_set_models_components (shape_models c) n_shape
    (shape_model_objects σ) = (Return (), h') →
  (length (expert_ensembles c) < n_scales c)%nat
  ∨ (length (shape_models c) < n_scales c)%nat →
  GradientDescentCLMFitter_init checks_set_models_components
    MultiScaleParametricFitter_init RegularisedLandmarkMeanShift
    model gd_algorithm_cls n_shape σ
  = (Raise IndexError,
     {| clm_objects := clm_objects σ; shape_model_objects := h' |}).
Proof.
  intros Hc Hset Hshort. rewrite (construct_run _ _ _ _ c Hc), Hset.
  cbv zeta.
  rewrite build_algorithms_run with (c := c) by exact Hc.
  destruct (forallb _ (seq 0 (n_scales c))) eqn:Hall; [|reflexivity].
  exfalso. rewrite forallb_forall in Hall.
  destruct Hshort as [Hshort|Hshort].
  - specialize (Hall (length (expert_ensembles c))).
    rewrite andb_true_iff, !bool_decide_eq_true in Hall.
    destruct Hall as [? _]; [|lia]. apply in_seq. lia.
  - specialize (Hall (length (shape_models c))).
    rewrite andb_true_iff, !bool_decide_eq_true in Hall.
    destruct Hall as [_ ?]; [|lia]. apply in_seq. lia.
Qed.

(** X5.  Two fitters built one after the other from the same model
    share it: the [clm] property of both is the one reference, and the
    shape models behind it hold the setting of the second construction
    applied on top of the first, also as seen through the first
    fitter. *)
Theorem fitters_of_one_model_share_it
    model gd_cls_a gd_cls_b n_shape_1 n_shape_2 σ c fitter_1 σ1 fitter_2 σ2 :
  clm_objects σ !! model = Some c →
  GradientDescentCLMFitter_init checks_set_models_components
    MultiScaleParametricFitter_init RegularisedLandmarkMeanShift
    model gd_cls_a n_shape_1 σ = (Return fitter_1, σ1) →
  GradientDescentCLMFitter_init checks_set_models_components
    MultiScaleParametricFitter_init RegularisedLandmarkMeanShift
    model gd_cls_b n_shape_2 σ1 = (Return fitter_2, σ2) →
  clm fitter_1 = clm fitter_2
  ∧ clm_objects σ2 !! clm fitter_1 = Some c
  ∧ shape_model_objects σ2
    = (checks_set_models_components (shape_models c) n_shape_2
         (checks_set_models_components (shape_models c) n_shape_1
            (shape_model_objects σ)).2).2.
Proof.
  intros Hc Hrun1 Hrun2.
  destruct (construct_store _ _ _ _ _ _ _ Hc Hrun1) as [-> Hf1].
  eapply (construct_store _ _ _ _ c) in Hrun2 as [-> Hf2]; [|exact Hc].
  unfold clm. rewrite (Hf1 _ eq_refl), (Hf2 _ eq_refl). done.
Qed.
End ConstructionFacts.

Lemma construction_index_error_after_setting_witness :
  clm_objects overlong_store !! 1%positive = Some overlong_clm
  ∧ set_models_components (shape_models overlong_clm) (Single (AsInt 2))
      (shape_model_objects overlong_store)
    = (Return (),
       (set_models_components [10; 11]%positive (Single (AsInt 2))
          sample_models).2)
  ∧ (length (expert_ensembles overlong_clm) < n_scales overlong_clm)%nat
  ∧ GradientDescentCLMFitter_init set_models_components sample_base_init
      sample_algorithm_cls 1%positive None (Single (AsInt 2)) overlong_store
    = (Raise IndexError,
       {| clm_objects := clm_objects overlong_store;
          shape_model_objects :=
            (set_models_components [10; 11]%positive (Single (AsInt 2))
               sample_models).2 |}).
Proof.
  split; [reflexivity|]. split; [reflexivity|]. split; [simpl; lia|].
  apply (construction_index_error_after_setting set_models_components
           sample_base_init sample_algorithm_cls 1%positive None
           (Single (AsInt 2)) overlong_store overlong_clm _ eq_refl eq_refl).
  left. simpl. lia.
Defined.

Lemma fitters_of_one_model_share_it_witness :
  let first :=
    GradientDescentCLMFitter_init set_models_components sample_base_init
      sample_algorithm_cls 1%positive None (Single (AsInt 2)) sample_store in
  let second :=
    GradientDescentCLMFitter_init set_models_components sample_base_init
      sample_algorithm_cls 1%positive None (Single (AsInt 1)) first.2 in
  clm_objects sample_store !! 1%positive = Some sample_clm
  ∧ ∃ fitter_1 fitter_2,
      first.1 = Return fitter_1 ∧ second.1 = Return fitter_2
      ∧ clm fitter_1 = clm fitter_2
      ∧ n_active_components <$> shape_model_objects second.2 !! 10%positive
        = Some 1%nat.
Proof.
  intros first second. split; [reflexivity|].
  eexists _, _. split; [reflexivity|]. split; [reflexivity|].
  split; [|reflexivity].
  eapply (proj1 (fitters_of_one_model_share_it set_models_components
                   sample_base_init sample_algorithm_cls 1%positive None None
                   (Single (AsInt 2)) (Single (AsInt 1)) sample_store
                   sample_clm _ first.2 _ second.2 eq_refl eq_refl eq_refl)).
Defined.

(** ** The description and the result of a fitter *)

Section DescriptionFacts.
Context {Shape Features Ensemble Algorithm Base : Type}.
Context {Image ScaleResult Affine ScaleTransform Result : Type}.
Context (fitter_scales : Base → list Q).
Context (fitter_algorithms : Base → list Algorithm).
Context (clm_str : CLM Shape Features Ensemble → gmap loc ShapeModel → string).
Context (algorithm_str : Algorithm → gmap loc ShapeModel → string).
Context (str_scale : Q → string).
Context (str_scales : list Q → string).
Context (CLMResult :
           list ScaleResult → list Q → list Affine → list ScaleTransform →
           Image → option Shape → Result).
Implicit Types (σ : store Shape Features Ensemble).
Implicit Types (c : CLM Shape Features Ensemble).
Implicit Types (self : CLMFitter Base).

Lemma deref_shape_model_alive m x σ :
  shape_model_objects σ !! m = Some x →
  deref_shape_model m σ = (Return x, σ).
Proof. intros Hm. unfold deref_shape_model. by rewrite Hm. Qed.

(** The loop over the scales returns one filled template per scale when
    every scale has a shape model. *)
Lemma scales_info_from_returns self c σ scales k :
  clm_objects σ !! clm self = Some c →
  (∀ m, m ∈ shape_models c → is_Some (shape_model_objects σ !! m)) →
  (k + length scales ≤ length (shape_models c))%nat →
  ∃ blocks,
    scales_info_from str_scale self k scales σ = (Return blocks, σ)
    ∧ length blocks = length scales
    ∧ ∀ j s, scales !! j = Some s →
        ∃ m x, shape_models c !! (k + j)%nat = Some m
               ∧ shape_model_objects σ !! m = Some x
               ∧ blocks !! j
                 = Some (lvl_str_tmplt (str_scale s)
                           (pretty (n_active_components x))
                           (pretty (n_global_parameters x))).
Proof.
  intros Hc Halive. revert k.
  induction scales as [|s rest IH]; intros k Hlen.
  - exists []. split; [done|]. split; [done|]. by intros j s Hj.
  - simpl in Hlen. destruct (IH (S k)) as (others & Hrun & Hothers & Hblocks);
      [lia|].
    destruct (lookup_lt_is_Some_2 (shape_models c) k) as [m Hm]; [lia|].
    destruct (Halive m) as [x Hx]; [by eapply list_elem_of_lookup_2|].
    exists (lvl_str_tmplt (str_scale s) (pretty (n_active_components x))
              (pretty (n_global_parameters x)) :: others).
    split; [|split].
    + cbn [scales_info_from].
      rewrite (bind_returns _ _ _ _ _ (deref_alive (clm self) c σ Hc)).
      rewrite bind_run, getitem_run, Hm.
      rewrite (bind_returns _ _ _ _ _ (deref_shape_model_alive m x σ Hx)).
      rewrite (bind_returns _ _ _ _ _ (deref_alive (clm self) c σ Hc)).
      rewrite bind_run, getitem_run, Hm.
      rewrite (bind_returns _ _ _ _ _ (deref_shape_model_alive m x σ Hx)).
      rewrite (bind_returns _ _ _ _ _ Hrun). reflexivity.
    + simpl. by rewrite Hothers.
    + intros [|j] s' Hj; simpl in Hj.
      * injection Hj as <-. exists m, x. by rewrite Nat.add_0_r.
      * destruct (Hblocks j s' Hj) as (m' & x' & Hm' & Hx' & Hb).
        exists m', x'. by rewrite Nat.add_succ_r.
Qed.

(** It raises [IndexError] at the first scale that has no shape model. *)
Lemma scales_info_from_index_error self c σ scales k :
  clm_objects σ !! clm self = Some c →
  (∀ m, m ∈ shape_models c → is_Some (shape_model_objects σ !! m)) →
  (k ≤ length (shape_models c))%nat →
  (length (shape_models c) < k + length scales)%nat →
  scales_info_from str_scale self k scales σ = (Raise IndexError, σ).
Proof.
  intros Hc Halive. revert k.
  induction scales as [|s rest IH]; intros k Hk Hlen; [simpl in Hlen; lia|].
  cbn [scales_info_from].
  rewrite (bind_returns _ _ _ _ _ (deref_alive (clm self) c σ Hc)).
  rewrite bind_run, getitem_run.
  destruct (shape_models c !! k) as [m|] eqn:Hm; [|reflexivity].
  destruct (Halive m) as [x Hx]; [by eapply list_elem_of_lookup_2|].
  rewrite (bind_returns _ _ _ _ _ (deref_shape_model_alive m x σ Hx)).
  rewrite (bind_returns _ _ _ _ _ (deref_alive (clm self) c σ Hc)).
  rewrite bind_run, getitem_run, Hm.
  rewrite (bind_returns _ _ _ _ _ (deref_shape_model_alive m x σ Hx)).
  apply lookup_lt_Some in Hm.
  rewrite bind_run, (IH (S k)); [reflexivity|lia|simpl in Hlen; lia].
Qed.

(** X6.  The description of a fitter is the description of its model
    followed by the description of its first algorithm, the list of
    scales and one block per scale; the block of a scale shows the active
    components and the similarity-transform components that the shape
    model of that scale holds at the moment of the call.  Describing a
    fitter writes nothing. *)
Theorem description_shows_current_components self c σ a :
  clm_objects σ !! clm self = Some c →
  (∀ m, m ∈ shape_models c → is_Some (shape_model_objects σ !! m)) →
  (length (fitter_scales (base self)) ≤ length (shape_models c))%nat →
  fitter_algorithms (base self) !! 0%nat = Some a →
  ∃ blocks,
    __str__ fitter_scales fitter_algorithms clm_str algorithm_str str_scale
      str_scales self σ
    = (Return (clm_str c (shape_model_objects σ)
               +:+ cls_str_tmplt (algorithm_str a (shape_model_objects σ))
                     (str_scales (fitter_scales (base self)))
                     (join newline blocks)),
       σ)
    ∧ length blocks = length (fitter_scales (base self))
    ∧ ∀ k s, fitter_scales (base self) !! k = Some s →
        ∃ m x, shape_models c !! k = Some m
               ∧ shape_model_objects σ !! m = Some x
               ∧ blocks !! k
                 = Some (lvl_str_tmplt (str_scale s)
                           (pretty (n_active_components x))
                           (pretty (n_global_parameters x))).
Proof.
  intros Hc Halive Hlen Ha.
  destruct (scales_info_from_returns self c σ (fitter_scales (base self)) 0
              Hc Halive Hlen) as (blocks & Hrun & Hblocks & Heach).
  exists blocks. split; [|split; [done|exact Heach]].
  unfold __str__. rewrite (bind_returns _ _ _ _ _ Hrun).
  rewrite bind_run, getitem_run, Ha.
  rewrite bind_run. unfold shape_models_now at 1.
  rewrite (bind_returns _ _ _ _ _ (deref_alive (clm self) c σ Hc)).
  reflexivity.
Qed.

(** X7.  A fitter with more scales than its model has shape models, or
    with no algorithm at all, cannot be described: [__str__] raises
    [IndexError], and writes nothing. *)
Theorem description_index_error self c σ :
  clm_objects σ !! clm self = Some c →
  (∀ m, m ∈ shape_models c → is_Some (shape_model_objects σ !! m)) →
  (length (shape_models c) < length (fitter_scales (base self)))%nat
  ∨ fitter_algorithms (base self) = [] →
  __str__ fitter_scales fitter_algorithms clm_str algorithm_str str_scale
    str_scales self σ
  = (Raise IndexError, σ).
Proof.
  intros Hc Halive Hbad. unfold __str__.
  destruct (decide (length (fitter_scales (base self))
                    ≤ length (shape_models c))%nat) as [Hlen|Hlen].
  - destruct Hbad as [?|Hnone]; [lia|].
    destruct (scales_info_from_returns self c σ (fitter_scales (base self)) 0
                Hc Halive Hlen) as (blocks & Hrun & _).
    rewrite (bind_returns _ _ _ _ _ Hrun).
    by rewrite bind_run, getitem_run, Hnone.
  - rewrite (bind_raises _ _ _ IndexError σ); [reflexivity|].
    apply (scales_info_from_index_error self c); [done|done|lia|lia].
Qed.
End DescriptionFacts.

Example describe_sample_fitter :
  __str__ fst snd sample_clm_str sample_algorithm_str sample_str_scale
    sample_str_scales sample_fitter sample_store_set
  = (Return
       ("CLM with 2 scales"
        +:+ join newline
              ["Algorithm on coarse experts";
               " - Scales: [1/2, 1/1]";
               "   - Scale 1/2";
               "     - 2 active shape components";
               "     - 4 similarity transform components";
               "   - Scale 1/1";
               "     - 2 active shape components";
               "     - 4 similarity transform components";
               "    "]),
     sample_store_set).
Proof. reflexivity. Qed.

Lemma sample_models_alive (h : gmap loc ShapeModel) :
  is_Some (h !! 10%positive) → is_Some (h !! 11%positive) →
  ∀ m, m ∈ [10; 11]%positive → is_Some (h !! m).
Proof.
  intros H10 H11 m Hm.
  repeat (apply elem_of_cons in Hm as [->|Hm]; [done|]).
  by apply elem_of_nil in Hm.
Qed.

Lemma description_shows_current_components_witness :
  clm_objects sample_store_set !! clm sample_fitter = Some sample_clm
  ∧ (length (base sample_fitter).1 ≤ length (shape_models sample_clm))%nat
  ∧ (base sample_fitter).2 !! 0%nat = Some ("coarse experts", Some 2%nat)
  ∧ ∃ blocks,
      __str__ fst snd sample_clm_str sample_algorithm_str sample_str_scale
        sample_str_scales sample_fitter sample_store_set
      = (Return (sample_clm_str sample_clm
                   (shape_model_objects sample_store_set)
                 +:+ cls_str_tmplt
                       (sample_algorithm_str ("coarse experts", Some 2%nat)
                          (shape_model_objects sample_store_set))
                       (sample_str_scales (base sample_fitter).1)
                       (join newline blocks)),
         sample_store_set)
      ∧ length blocks = 2%nat.
Proof.
  split; [reflexivity|]. split; [simpl; lia|]. split; [reflexivity|].
  destruct (description_shows_current_components fst snd sample_clm_str
              sample_algorithm_str sample_str_scale sample_str_scales
              sample_fitter sample_clm sample_store_set
              ("coarse experts", Some 2%nat) eq_refl
              (sample_models_alive (shape_model_objects sample_store_set)
                 (mk_is_Some _ _ eq_refl) (mk_is_Some _ _ eq_refl))
              (le_n 2) eq_refl) as (blocks & Hrun & Hlen & _).
  exists blocks. split; [exact Hrun|exact Hlen].
Defined.

Lemma description_index_error_witness :
  clm_objects empty_store !! clm empty_fitter = Some empty_clm
  ∧ (base empty_fitter).2 = []
  ∧ __str__ fst snd sample_clm_str sample_algorithm_str sample_str_scale
      sample_str_scales empty_fitter empty_store
    = (Raise IndexError, empty_store).
Proof.
  split; [reflexivity|]. split; [reflexivity|].
  apply (description_index_error fst snd sample_clm_str sample_algorithm_str
           sample_str_scale sample_str_scales empty_fitter empty_clm
           empty_store eq_refl).
  - by intros m Hm%elem_of_nil.
  - by right.
Defined.

(** ** A fitter from its construction to its description and result *)

Section ConstructedFitter.
Context {Shape Features Ensemble Algorithm Base : Type}.
Context {Image ScaleResult Affine ScaleTransform Result : Type}.
Context (checks_set_models_components :
           list loc → n_shape_arg → M (gmap loc ShapeModel) unit).
Context (MultiScaleParametricFitter_init :
           list Q → Shape → Features → list Algorithm → Base).
Context (RegularisedLandmarkMeanShift : algorithm_cls Ensemble Algorithm).
Context (fitter_scales : Base → list Q).
Context (fitter_algorithms : Base → list Algorithm).
Context (clm_str : CLM Shape Features Ensemble → gmap loc ShapeModel → string).
Context (algorithm_str : Algorithm → gmap loc ShapeModel → string).
Context (str_scale : Q → string).
Context (str_scales : list Q → string).
Context (CLMResult :
           list ScaleResult → list Q → list Affine → list ScaleTransform →
           Image → option Shape → Result).
Implicit Types (σ : store Shape Features Ensemble).
Implicit Types (c : CLM Shape Features Ensemble).

Lemma omap_length {A B} (f : A → option B) (l : list A) :
  (∀ x, x ∈ l → is_Some (f x)) → length (omap f l) = length l.
Proof.
  induction l as [|x l IH]; intros Hall; [reflexivity|].
  cbn [omap list_omap]. destruct (Hall x) as [y ->]; [by left|].
  simpl. rewrite IH; [done|]. intros x' Hx'. apply Hall. by right.
Qed.

(** What the constructor returns when it returns. *)
Lemma construct_returns model gd_algorithm_cls n_shape σ c fitter σ' :
  clm_objects σ !! model = Some c →
  GradientDescentCLMFitter_init checks_set_models_components
    MultiScaleParametricFitter_init RegularisedLandmarkMeanShift
    model gd_algorithm_cls n_shape σ = (Return fitter, σ') →
  clm_objects σ' = clm_objects σ
  ∧ ∃ algorithms,
      fitter = {| _model := model;
                  base := MultiScaleParametricFitter_init (scales c)
                            (reference_shape c) (holistic_features c)
                            algorithms |}
      ∧ length algorithms = n_scales c.
Proof.
  intros Hc. rewrite (construct_run _ _ _ _ _ _ _ c Hc).
  destruct (checks_set_models_components (shape_models c) n_shape
              (shape_model_objects σ)) as [[[]|e] h']; [|discriminate].
  cbv zeta. rewrite build_algorithms_run with (c := c) by exact Hc.
  destruct (forallb _ (seq 0 (n_scales c))) eqn:Hall; [|discriminate].
  cbn [fst]. intros [= <- <-]. split; [reflexivity|].
  eexists. split; [reflexivity|].
  rewrite omap_length; [apply length_seq|].
  intros i Hi. rewrite forallb_forall in Hall.
  apply list_elem_of_In, Hall in Hi.
  rewrite andb_true_iff, !bool_decide_eq_true in Hi. destruct Hi as [He Hm].
  apply lookup_lt_is_Some_2 in He as [e ->].
  apply lookup_lt_is_Some_2 in Hm as [m ->]. by eexists.
Qed.

(** X8.  When the multi-scale base class keeps the scales and the
    algorithms it is given, whether a fitter that the constructor
    returned can be described depends on the number of scales of its
    model.  Built from a
    model without scales it has no algorithm, so [__str__] raises
    [IndexError]; built from a model with at least one scale, and a shape
    model for each entry of [scales], [__str__] returns.  Describing it
    writes nothing. *)
Theorem constructed_fitter_description
    model gd_algorithm_cls n_shape σ c fitter σ' :
  (∀ scales reference_shape holistic_features algorithms,
     fitter_scales (MultiScaleParametricFitter_init scales reference_shape
                      holistic_features algorithms) = scales) →
  (∀ scales reference_shape holistic_features algorithms,
     fitter_algorithms (MultiScaleParametricFitter_init scales
                          reference_shape holistic_features algorithms)
     = algorithms) →
  clm_objects σ !! model = Some c →
  GradientDescentCLMFitter_init checks_set_models_components
    MultiScaleParametricFitter_init RegularisedLandmarkMeanShift
    model gd_algorithm_cls n_shape σ = (Return fitter, σ') →
  (∀ m, m ∈ shape_models c → is_Some (shape_model_objects σ' !! m)) →
  (n_scales c = 0%nat →
   __str__ fitter_scales fitter_algorithms clm_str algorithm_str str_scale
     str_scales fitter σ' = (Raise IndexError, σ'))
  ∧ ((1 ≤ n_scales c)%nat →
     (length (scales c) ≤ length (shape_models c))%nat →
     ∃ text,
       __str__ fitter_scales fitter_algorithms clm_str algorithm_str
         str_scale str_scales fitter σ' = (Return text, σ')).
Proof.
  intros Hscales Halgorithms Hc Hrun Halive.
  destruct (construct_returns _ _ _ _ _ _ _ Hc Hrun)
    as (Hclm & algorithms & -> & Hlen).
  assert (clm_objects σ' !! model = Some c) as Hc' by by rewrite Hclm.
  unfold __str__. cbn [base clm _model]. rewrite Hscales, Halgorithms.
  destruct (decide (length (scales c) ≤ length (shape_models c))%nat)
    as [Hfit|Hfit].
  - destruct (scales_info_from_returns str_scale
                {| _model := model;
                   base := MultiScaleParametricFitter_init (scales c)
                             (reference_shape c) (holistic_features c)
                             algorithms |}
                c σ' (scales c) 0 Hc' Halive Hfit) as (blocks & Hloop & _).
    rewrite (bind_returns _ _ _ _ _ Hloop), bind_run, getitem_run. split.
    + intros Hnone. rewrite Hnone in Hlen.
      by destruct algorithms.
    + intros Hsome _. destruct algorithms as [|a others]; [simpl in Hlen; lia|].
      cbn [lookup list_lookup]. rewrite bind_run. unfold shape_models_now at 1.
      rewrite (bind_returns _ _ _ _ _ (deref_alive model c σ' Hc')).
      by eexists.
  - split; [|intros _ ?; lia]. intros _.
    rewrite (bind_raises _ _ _ IndexError σ'); [reflexivity|].
    apply (scales_info_from_index_error str_scale _ c); [done|done|lia|lia].
Qed.

(** X9.  When the multi-scale base class keeps the scales it is given,
    the result that a constructed fitter assembles carries the scales of
    the model the fitter was built from, beside the per-scale
    results, the transforms, the image and the ground truth it was
    handed. *)
Theorem constructed_fitter_result_scales
    model gd_algorithm_cls n_shape σ c fitter σ'
    image algorithm_results affine_transforms scale_transforms gt_shape :
  (∀ scales reference_shape holistic_features algorithms,
     fitter_scales (MultiScaleParametricFitter_init scales reference_shape
                      holistic_features algorithms) = scales) →
  clm_objects σ !! model = Some c →
  GradientDescentCLMFitter_init checks_set_models_components
    MultiScaleParametricFitter_init RegularisedLandmarkMeanShift
    model gd_algorithm_cls n_shape σ = (Return fitter, σ') →
  _fitter_result fitter_scales CLMResult fitter image algorithm_results
    affine_transforms scale_transforms gt_shape
  = CLMResult algorithm_results (scales c) affine_transforms scale_transforms
      image gt_shape.
Proof.
  intros Hscales Hc Hrun.
  destruct (construct_returns _ _ _ _ _ _ _ Hc Hrun)
    as (_ & algorithms & -> & _).
  unfold _fitter_result. cbn [base]. by rewrite Hscales.
Qed.
End ConstructedFitter.

Lemma constructed_fitter_description_witness :
  clm_objects sample_store !! 1%positive = Some sample_clm
  ∧ GradientDescentCLMFitter_init set_models_components sample_base_init
      sample_algorithm_cls 1%positive None (Single (AsInt 2)) sample_store
    = (Return sample_fitter, sample_store_set)
  ∧ (1 ≤ n_scales sample_clm)%nat
  ∧ (length (scales sample_clm) ≤ length (shape_models sample_clm))%nat
  ∧ ∃ text,
      __str__ fst snd sample_clm_str sample_algorithm_str sample_str_scale
        sample_str_scales sample_fitter sample_store_set
      = (Return text, sample_store_set).
Proof.
  split; [reflexivity|]. split; [reflexivity|].
  split; [simpl; lia|]. split; [simpl; lia|].
  apply (proj2 (constructed_fitter_description set_models_components
                  sample_base_init sample_algorithm_cls fst snd
                  sample_clm_str sample_algorithm_str sample_str_scale
                  sample_str_scales 1%positive None (Single (AsInt 2))
                  sample_store sample_clm sample_fitter sample_store_set
                  (λ _ _ _ _, eq_refl) (λ _ _ _ _, eq_refl) eq_refl eq_refl
                  (sample_models_alive (shape_model_objects sample_store_set)
                     (mk_is_Some _ _ eq_refl) (mk_is_Some _ _ eq_refl))));
    simpl; lia.
Defined.

Example describe_empty_fitter :
  GradientDescentCLMFitter_init set_models_components sample_base_init
    sample_algorithm_cls 1%positive None NoneArg empty_store
  = (Return empty_fitter, empty_store)
  ∧ __str__ fst snd sample_clm_str sample_algorithm_str sample_str_scale
      sample_str_scales empty_fitter empty_store
    = (Raise IndexError, empty_store).
Proof. split; reflexivity. Qed.

Lemma constructed_fitter_result_scales_witness :
  clm_objects sample_store !! 1%positive = Some sample_clm
  ∧ GradientDescentCLMFitter_init set_models_components sample_base_init
      sample_algorithm_cls 1%positive None (Single (AsInt 2)) sample_store
    = (Return sample_fitter, sample_store_set)
  ∧ _fitter_result fst
      (λ results scales affine scale image gt,
         (results, scales, affine, scale, image, gt))
      sample_fitter "image" ["coarse result"; "fine result"]
      ["affine 1"; "affine 2"] ["scale 1"; "scale 2"] (None : option string)
    = (["coarse result"; "fine result"], scales sample_clm,
       ["affine 1"; "affine 2"], ["scale 1"; "scale 2"], "image", None).
Proof.
  split; [reflexivity|]. split; [reflexivity|].
  apply (constructed_fitter_result_scales set_models_components
           sample_base_init sample_algorithm_cls fst
           (λ results scales affine scale image gt,
              (results, scales, affine, scale, image, gt))
           1%positive None (Single (AsInt 2)) sample_store sample_clm
           sample_fitter sample_store_set "image"
           ["coarse result"; "fine result"] ["affine 1"; "affine 2"]
           ["scale 1"; "scale 2"] None (λ _ _ _ _, eq_refl) eq_refl eq_refl).
Defined.
